(** * Envoy proxy plugin: discovery and merge of service fragments

    A shallow embedding of the TypeScript sources
    - [src/config-compiler/compiler.ts]   (class [Compiler]),
    - [src/config-compiler] discovery     (class [ConfigDiscover]),
    - [src/utils/fs-tools.ts]             (class [FsTools]),
    - [src/utils/yaml-tools.ts]           (class [YamlTools]),
    - the plugin entry point              (class [EnvoyProxyPlugin]),
    followed by the properties of the specification that concern them. *)

From stdpp Require Import base option list sets strings.
From Stdlib Require Import ZArith Lia.

(** * JavaScript completions

    A call either completes normally with a value or throws.  The object
    fields of [Compiler] are threaded as explicit state; the accesses to
    the file system made by discovery are recorded as a trace. *)

Inductive JsError : Type :=
  | TypeError (message : string)   (* raised by the engine *)
  | SystemError (path : string)    (* raised by node:fs (ENOENT, EACCES, ...) *)
  | YAMLException (path : string)  (* raised by js-yaml *)
  | Error (message : string).      (* [throw Error(message)] *)

(** [error.message].  The errors of [node:fs] and [js-yaml] are caught
    where they are raised and their text is never used; it is kept
    abstract as the path concerned. *)
Definition error_message (e : JsError) : string :=
  match e with
  | TypeError m => m
  | SystemError p => p
  | YAMLException p => p
  | Error m => m
  end.

Inductive completion (A : Type) : Type :=
  | Normal (a : A)
  | Thrown (e : JsError).
Arguments Normal {A} a.
Arguments Thrown {A} e.

(** ** State and exceptions: methods of an object with mutable fields *)

Definition St (S A : Type) : Type := S -> completion A * S.

#[global] Instance St_ret S : MRet (St S) := fun A a s => (Normal a, s).
#[global] Instance St_bind S : MBind (St S) := fun A B k m s =>
  match m s with
  | (Normal a, s') => k a s'
  | (Thrown e, s') => (Thrown e, s')
  end.

Definition get {S} : St S S := fun s => (Normal s, s).
Definition put {S} (s : S) : St S unit := fun _ => (Normal tt, s).
Definition throw {S A} (e : JsError) : St S A := fun s => (Thrown e, s).

(** [for (const x of l) body(x)] *)
Fixpoint for_of {S A} (l : list A) (body : A -> St S unit) : St S unit :=
  match l with
  | [] => mret tt
  | x :: rest => body x;; for_of rest body
  end.

(** * Data model ([src/config-types]) *)

(** Routes are opaque to the merge: only a matcher and an action are kept. *)
Record Route : Type := mkRoute {
  match_prefix : string;
  route_cluster : option string
}.

(** An element of a [Route[]] at run time: [None] is the value [undefined],
    which [Array.prototype.concat] appends when its argument is
    [undefined]. *)
Abbreviation RouteArray := (list (option Route)).

Record Cluster : Type := mkCluster {
  name : string;
  type : option string
}.

(** The fields on the way to the routes of the first virtual host are
    optional: the code tests their presence, and a document read from YAML
    may lack any of them. *)
Record VirtualHost : Type := mkVirtualHost {
  vh_name : string;
  vh_domains : list string;
  routes : RouteArray
}.

Record RouteConfig : Type := mkRouteConfig {
  rc_name : string;
  virtual_hosts : option (list VirtualHost)
}.

Record TypedConfig : Type := mkTypedConfig {
  stat_prefix : option string;
  route_config : option RouteConfig
}.

Record Filter : Type := mkFilter {
  filter_name : string;
  typed_config : option TypedConfig
}.

Record FilterChain : Type := mkFilterChain {
  filters : option (list Filter)
}.

Record Listener : Type := mkListener {
  listener_name : string;
  filter_chains : option (list FilterChain)
}.

Record StaticResources : Type := mkStaticResources {
  listeners : option (list Listener);
  clusters : list Cluster
}.

Record EnvoyConfig : Type := mkEnvoyConfig {
  static_resources : option StaticResources
}.

(** [ServiceConfg]: a fragment built by hand may leave a field [undefined]
    (as the test suite does). *)
Record ServiceConfg : Type := mkServiceConfg {
  sc_clusters : option (list Cluster);
  sc_routes : option RouteArray
}.

(** * Array primitives *)

(** [Array.prototype.findIndex]: the index of the first element that
    satisfies [p], or [-1]. *)
Fixpoint findIndex {A} (p : A -> bool) (l : list A) : Z :=
  match l with
  | [] => (-1)%Z
  | x :: rest =>
      if p x then 0%Z
      else let i := findIndex p rest in
           if (i =? -1)%Z then (-1)%Z else (i + 1)%Z
  end.

(** [a[i] = v] for an index inside the array (outside, JavaScript would
    extend the array; [findIndex] never yields such an index). *)
Definition array_set {A} (a : list A) (i : Z) (v : A) : list A :=
  <[Z.to_nat i := v]> a.

(** [a.push(v)] *)
Definition push {A} (a : list A) (v : A) : list A := a ++ [v].

(** [a.concat(arg)]: an array argument is spread, [undefined] is appended
    as one element. *)
Definition concat (a : RouteArray) (arg : option RouteArray) : RouteArray :=
  match arg with
  | Some b => a ++ b
  | None => a ++ [None]
  end.

(** * [Compiler] ([src/config-compiler/compiler.ts]) *)

Module Compiler.

(** The private fields of the class. *)
Record t : Type := mk {
  serviceConfigs : list ServiceConfg;
  store : option EnvoyConfig
}.

Definition constructor (configBase : option EnvoyConfig)
    (serviceConfigs : list ServiceConfg) : t :=
  {| serviceConfigs := serviceConfigs; store := configBase |}.

Definition set_store (cfg : EnvoyConfig) : St t unit :=
  fun this => (Normal tt, {| serviceConfigs := serviceConfigs this; store := Some cfg |}).

Definition undefined_read (prop : string) : JsError :=
  TypeError ("Cannot read properties of undefined (reading '" +:+ prop +:+ "')").

(** [addRoute]: the chain of [&&] tests, left to right, then the
    assignment to [virtual_hosts[0].routes]. *)
Definition addRoute (routesToAdd : option RouteArray) : St t unit :=
  this ← get;
  match store this with
  | None => mret tt
  | Some cfg =>
    match static_resources cfg with
    | None => throw (undefined_read "listeners")
    | Some sr =>
      match listeners sr with
      | None => throw (undefined_read "length")
      | Some [] => mret tt
      | Some (l0 :: ls) =>
        match filter_chains l0 with
        | None | Some [] => mret tt
        | Some (fc0 :: fcs) =>
          match filters fc0 with
          | None | Some [] => mret tt
          | Some (f0 :: fs) =>
            match typed_config f0 with
            | None => mret tt
            | Some tc =>
              match route_config tc with
              | None => mret tt
              | Some rc =>
                match virtual_hosts rc with
                | None | Some [] => mret tt
                | Some (vh0 :: vhs) =>
                  let vh0' :=
                    {| vh_name := vh_name vh0; vh_domains := vh_domains vh0;
                       routes := concat (routes vh0) routesToAdd |} in
                  let rc' :=
                    {| rc_name := rc_name rc;
                       virtual_hosts := Some (vh0' :: vhs) |} in
                  let tc' :=
                    {| stat_prefix := stat_prefix tc;
                       route_config := Some rc' |} in
                  let f0' :=
                    {| filter_name := filter_name f0;
                       typed_config := Some tc' |} in
                  let fc0' := {| filters := Some (f0' :: fs) |} in
                  let l0' :=
                    {| listener_name := listener_name l0;
                       filter_chains := Some (fc0' :: fcs) |} in
                  set_store
                    {| static_resources :=
                         Some {| listeners := Some (l0' :: ls);
                                 clusters := clusters sr |} |}
                end
              end
            end
          end
        end
      end
    end
  end.

(** The body of the cluster loop of [mergeConfig], on the cluster array. *)
Definition mergeCluster (newCluster : Cluster) (cs : list Cluster) : list Cluster :=
  let hasCluster :=
    findIndex (fun cluster => String.eqb (name newCluster) (name cluster)) cs in
  if (hasCluster =? -1)%Z then push cs newCluster
  else array_set cs hasCluster newCluster.

(** The same body as a statement on [this.store]. *)
Definition mergeClusterStmt (newCluster : Cluster) : St t unit :=
  this ← get;
  match store this with
  | None => throw (TypeError "Cannot read properties of null (reading 'static_resources')")
  | Some cfg =>
    match static_resources cfg with
    | None => throw (undefined_read "clusters")
    | Some sr =>
      set_store
        {| static_resources :=
             Some {| listeners := listeners sr;
                     clusters := mergeCluster newCluster (clusters sr) |} |}
    end
  end.

Definition mergeConfig (service : ServiceConfg) : St t unit :=
  this ← get;
  match store this with
  | None => mret tt
  | Some _ =>
    match sc_clusters service with
    | None => throw (TypeError "service.clusters is not iterable")
    | Some cs => for_of cs mergeClusterStmt
    end;;
    addRoute (sc_routes service)
  end.

(** The loop of [build]; [return] leaves it. *)
Fixpoint build_loop (ss : list ServiceConfg) : St t unit :=
  match ss with
  | [] => mret tt
  | s :: rest =>
    this ← get;
    match store this with
    | None => mret tt
    | Some _ => mergeConfig s;; build_loop rest
    end
  end.

Definition build : St t unit :=
  this ← get; build_loop (serviceConfigs this).

Definition getStore (this : t) : option EnvoyConfig := store this.

(** [new Compiler(base, services)], [build()], [getStore()]: the
    completion of [build] and the store it leaves. *)
Definition run (configBase : option EnvoyConfig) (services : list ServiceConfg)
    : completion unit * option EnvoyConfig :=
  let '(c, this) := build (constructor configBase services) in
  (c, getStore this).

End Compiler.

(** * An earlier variant of [Compiler] ([unnamed/part_000])

    The repository holds a second text of the class, in which [mergeConfig]
    and [addRoute] take and return documents and [build] returns the
    store.  The entry point does not use it: it calls [getStore], which
    only the class above has.  It is modelled here for comparison. *)

Module CompilerVariant.

(** The object [{ ...a }] spread from an array [a] (or from [undefined]):
    the elements under their indices.  [length] is not an enumerable
    property of an array, so the object has none. *)
Record ArraySpread (A : Type) : Type := mkArraySpread {
  elements : list A;
  length_property : option nat
}.
Arguments elements {A} _.
Arguments length_property {A} _.

Definition object_spread {A} (a : option (list A)) : ArraySpread A :=
  {| elements := default [] a; length_property := None |}.

Definition getRouteArray (config : EnvoyConfig) : completion RouteArray :=
  match static_resources config with
  | None => Thrown (Compiler.undefined_read "listeners")
  | Some sr =>
    Normal
      match listeners sr with
      | Some (l0 :: _) =>
        match filter_chains l0 with
        | Some (fc0 :: _) =>
          match filters fc0 with
          | Some (f0 :: _) =>
            match typed_config f0 with
            | Some tc =>
              match route_config tc with
              | Some rc =>
                match virtual_hosts rc with
                | Some (vh0 :: _) => routes vh0
                | _ => []
                end
              | None => []
              end
            | None => []
            end
          | _ => []
          end
        | _ => []
        end
      | _ => []
      end
  end.

(** [addRoute]: the test reads [listeners.length] on the spread object,
    which is [undefined], and [undefined > 0] is false. *)
Definition addRoute (config : EnvoyConfig) (routes_ : RouteArray) : completion EnvoyConfig :=
  match static_resources config with
  | None => Thrown (Compiler.undefined_read "listeners")
  | Some sr =>
    let listeners_ := object_spread (listeners sr) in
    match length_property listeners_ with
    | None => Normal config
    | Some n =>
      if (0 <? n)%nat then
        match elements listeners_ with
        | l0 :: ls =>
          match filter_chains l0 with
          | Some (fc0 :: fcs) =>
            match filters fc0 with
            | Some (f0 :: fs) =>
              match typed_config f0 with
              | Some tc =>
                match route_config tc with
                | Some rc =>
                  match virtual_hosts rc with
                  | Some (vh0 :: vhs) =>
                    let vh0' :=
                      {| vh_name := vh_name vh0; vh_domains := vh_domains vh0;
                         routes := routes vh0 ++ routes_ |} in
                    let rc' :=
                      {| rc_name := rc_name rc; virtual_hosts := Some (vh0' :: vhs) |} in
                    let tc' :=
                      {| stat_prefix := stat_prefix tc; route_config := Some rc' |} in
                    let f0' :=
                      {| filter_name := filter_name f0; typed_config := Some tc' |} in
                    let fc0' := {| filters := Some (f0' :: fs) |} in
                    let l0' :=
                      {| listener_name := listener_name l0;
                         filter_chains := Some (fc0' :: fcs) |} in
                    Normal {| static_resources :=
                                Some {| listeners := Some (l0' :: ls);
                                        clusters := clusters sr |} |}
                  | _ => Normal config
                  end
                | None => Normal config
                end
              | None => Normal config
              end
            | _ => Normal config
            end
          | _ => Normal config
          end
        | [] => Normal config
        end
      else Normal config
    end
  end.

(** The cluster loop writes into the array that [base], the store, holds:
    [{ ...base }] shares [static_resources] with it. *)
Definition mergeClusterStmt (newCluster : Cluster) : St (option EnvoyConfig) unit :=
  store ← get;
  match store with
  | None => throw (TypeError "Cannot read properties of null (reading 'static_resources')")
  | Some base =>
    match static_resources base with
    | None => throw (Compiler.undefined_read "clusters")
    | Some sr =>
      put (Some {| static_resources :=
                     Some {| listeners := listeners sr;
                             clusters := Compiler.mergeCluster newCluster (clusters sr) |} |})
    end
  end.

Definition lift_completion {S A} (c : completion A) : St S A := fun s => (c, s).

(** [mergeConfig(this.store, service)] *)
Definition mergeConfig (service : ServiceConfg) : St (option EnvoyConfig) EnvoyConfig :=
  match sc_clusters service with
  | None => throw (TypeError "service.clusters is not iterable")
  | Some cs => for_of cs mergeClusterStmt
  end;;
  store ← get;
  match store with
  | None => throw (TypeError "Cannot read properties of null (reading 'static_resources')")
  | Some envoyConfig =>
    existingRoutes ← lift_completion (getRouteArray envoyConfig);
    match sc_routes service with
    | None => throw (TypeError "service.routes is not iterable")
    | Some rs => lift_completion (addRoute envoyConfig (existingRoutes ++ rs))
    end
  end.

Fixpoint build (ss : list ServiceConfg) : St (option EnvoyConfig) (option EnvoyConfig) :=
  match ss with
  | [] => get
  | s :: rest =>
    store ← get;
    match store with
    | None => mret None
    | Some _ => merged ← mergeConfig s; put (Some merged);; build rest
    end
  end.

End CompilerVariant.

(** * The environment: [node:fs], [node:path] and [js-yaml] *)

Inductive Stats : Type :=
  | StatFile        (* [isFile()] *)
  | StatDirectory   (* [isDirectory()] *)
  | StatOther.      (* neither: a symbolic link, a socket, ... *)

(** A property of a parsed document that the code expects to be a list. *)
Inductive YamlProp (A : Type) : Type :=
  | PropMissing               (* [undefined] *)
  | PropNotArray              (* present, but not an array *)
  | PropArray (items : A).
Arguments PropMissing {A}.
Arguments PropNotArray {A}.
Arguments PropArray {A} items.

(** What [yaml.load] yields, seen through the properties that discovery
    reads from it: [routes], [clusters] and, for the base document,
    [static_resources]. *)
Inductive YamlDoc : Type :=
  | DocFalsy   (* [undefined] (empty document), [null], [false], [0], the empty string *)
  | DocTruthy (routes_prop : YamlProp RouteArray)
              (clusters_prop : YamlProp (list Cluster))
              (static_resources_prop : option StaticResources).

(** The calls of the libraries; [None] stands for a thrown exception. *)
Record NodeFs : Type := mkNodeFs {
  fs_readdir : string -> option (list string);
  fs_lstat : string -> option Stats;
  fs_readFile : string -> option string;
  yaml_load : string -> option YamlDoc;
  join : string -> string -> string
}.

(** ** Traces and exceptions: functions that call the file system *)

Inductive FsEvent : Type :=
  | Readdir (path : string)
  | Lstat (path : string)
  | ReadFile (path : string)
  | WriteFile (path : string) (data : EnvoyConfig).

Definition Io (A : Type) : Type := completion A * list FsEvent.

#[global] Instance Io_ret : MRet Io := fun A a => (Normal a, []).
#[global] Instance Io_bind : MBind Io := fun A B k m =>
  match m with
  | (Normal a, t) => let '(r, t') := k a in (r, t ++ t')
  | (Thrown e, t) => (Thrown e, t)
  end.

Definition io_throw {A} (e : JsError) : Io A := (Thrown e, []).

(** [try { m } catch (e) { handler(e) }] *)
Definition try_catch {A} (m : Io A) (handler : JsError -> Io A) : Io A :=
  match m with
  | (Normal a, t) => (Normal a, t)
  | (Thrown e, t) => let '(r, t') := handler e in (r, t ++ t')
  end.

Definition lift {A} (c : completion A) : Io A := (c, []).

Definition value {A} (m : Io A) : completion A := fst m.
Definition trace {A} (m : Io A) : list FsEvent := snd m.

Definition readdirSync (fs : NodeFs) (path : string) : Io (list string) :=
  (match fs_readdir fs path with
   | Some l => Normal l
   | None => Thrown (SystemError path)
   end, [Readdir path]).

Definition lstatSync (fs : NodeFs) (path : string) : Io Stats :=
  (match fs_lstat fs path with
   | Some st => Normal st
   | None => Thrown (SystemError path)
   end, [Lstat path]).

Definition readFileSync (fs : NodeFs) (path : string) : Io string :=
  (match fs_readFile fs path with
   | Some text => Normal text
   | None => Thrown (SystemError path)
   end, [ReadFile path]).

Definition writeFileSync (path : string) (data : EnvoyConfig) : Io unit :=
  (Normal tt, [WriteFile path data]).

(** [String.prototype.includes] and [String.prototype.endsWith] *)
Fixpoint includes (s sub : string) : bool :=
  String.prefix sub s ||
  match s with
  | EmptyString => false
  | String _ rest => includes rest sub
  end.

Definition endsWith (s sub : string) : bool :=
  let n := String.length s in
  let k := String.length sub in
  (k <=? n) && String.eqb (String.substring (n - k) k s) sub.

(** * [FsTools] ([src/utils/fs-tools.ts]) *)

Module FsTools.

Record DirContents : Type := mkDirContents {
  folders : list string;
  files : list string
}.

(** The loop of [listDirContents] over the entries of the directory. *)
Fixpoint sortContents (fs : NodeFs) (dirPath : string) (contents : list string)
    (sortedContents : DirContents) : Io DirContents :=
  match contents with
  | [] => mret sortedContents
  | item :: rest =>
    let fullPath := join fs dirPath item in
    stats ← lstatSync fs fullPath;
    sortContents fs dirPath rest
      match stats with
      | StatFile =>
          {| folders := folders sortedContents;
             files := push (files sortedContents) item |}
      | StatDirectory =>
          {| folders := push (folders sortedContents) item;
             files := files sortedContents |}
      | StatOther => sortedContents
      end
  end.

(** [null] is [None]. *)
Definition listDirContents (fs : NodeFs) (dirPath : string) : Io (option DirContents) :=
  try_catch
    (contents ← readdirSync fs dirPath;
     sortedContents ← sortContents fs dirPath contents {| folders := []; files := [] |};
     mret (Some sortedContents))
    (fun error => mret None).

End FsTools.

(** * [YamlTools] ([src/utils/yaml-tools.ts]) *)

Module YamlTools.

(** [null] is [None]. *)
Definition read_yaml (fs : NodeFs) (filePath : string) : Io (option YamlDoc) :=
  try_catch
    (fileContents ← readFileSync fs filePath;
     config ← lift match yaml_load fs fileContents with
                   | Some doc => Normal doc
                   | None => Thrown (YAMLException filePath)
                   end;
     mret (Some config))
    (fun e => mret None).

Definition write_yaml (dataDict : EnvoyConfig) (filePath : string) : Io unit :=
  try_catch (writeFileSync filePath dataDict) (fun e => mret tt).

End YamlTools.

(** * [ConfigDiscover] ([src/config-compiler]) *)

Module ConfigDiscover.

Record t : Type := mk {
  folderPaths : list string;
  baseConfigPath : string;
  configFolderName : string
}.

(** [configFolderName] defaults to ["envoy"]. *)
Definition constructor (folderPaths : list string) (baseConfigPath : string)
    (configFolderName : option string) : t :=
  {| folderPaths := folderPaths;
     baseConfigPath := baseConfigPath;
     configFolderName := default "envoy" configFolderName |}.

Definition readRouteYaml (fs : NodeFs) (filePath : string) : Io RouteArray :=
  routeFile ← YamlTools.read_yaml fs filePath;
  match routeFile with
  | Some (DocTruthy (PropArray routes) _ _) => mret routes
  | _ => mret []
  end.

(** The loop of [getRoutes] over [contents.files]. *)
Fixpoint getRoutes_loop (fs : NodeFs) (folderPath : string) (files : list string)
    (newRoutes : RouteArray) : Io RouteArray :=
  match files with
  | [] => mret newRoutes
  | f :: rest =>
    if includes f ".yaml" then
      fileRoutes ← readRouteYaml fs (join fs folderPath f);
      getRoutes_loop fs folderPath rest (newRoutes ++ fileRoutes)
    else getRoutes_loop fs folderPath rest newRoutes
  end.

Definition getRoutes (fs : NodeFs) (folderPath : string) : Io RouteArray :=
  contents ← FsTools.listDirContents fs folderPath;
  match contents with
  | Some contents => getRoutes_loop fs folderPath (FsTools.files contents) []
  | None => mret []
  end.

Definition readClusterYaml (fs : NodeFs) (filePath : string) : Io (list Cluster) :=
  clusterFile ← YamlTools.read_yaml fs filePath;
  match clusterFile with
  | Some (DocTruthy _ (PropArray clusters) _) => mret clusters
  | _ => mret []
  end.

Fixpoint getClusters_loop (fs : NodeFs) (folderPath : string) (files : list string)
    (newCluster : list Cluster) : Io (list Cluster) :=
  match files with
  | [] => mret newCluster
  | f :: rest =>
    if includes f ".yaml" then
      fileClusters ← readClusterYaml fs (join fs folderPath f);
      getClusters_loop fs folderPath rest (newCluster ++ fileClusters)
    else getClusters_loop fs folderPath rest newCluster
  end.

Definition getClusters (fs : NodeFs) (folderPath : string) : Io (list Cluster) :=
  contents ← FsTools.listDirContents fs folderPath;
  match contents with
  | Some contents => getClusters_loop fs folderPath (FsTools.files contents) []
  | None => mret []
  end.

(** A non-empty string is truthy. *)
Definition truthy (s : string) : bool := negb (String.eqb s "").

Definition findServiceConfigs (fs : NodeFs) (this : t) (folderPath : string)
    : Io (option ServiceConfg) :=
  contents ← FsTools.listDirContents fs folderPath;
  match contents with
  | Some contents =>
    match List.find (fun f => String.eqb f (configFolderName this))
                    (FsTools.folders contents) with
    | Some configFolder =>
      if truthy configFolder then
        let configPath := join fs folderPath configFolder in
        routes ← getRoutes fs (join fs configPath "routes");
        clusters ← getClusters fs (join fs configPath "clusters");
        if (0 <? length ([] ++ routes)) || (0 <? length ([] ++ clusters)) then
          mret (Some {| sc_clusters := Some ([] ++ clusters);
                        sc_routes := Some ([] ++ routes) |})
        else mret None
      else mret None
    | None => mret None
    end
  | None => mret None
  end.

(** The loop of [collect] over [folderPaths]. *)
Fixpoint collect_loop (fs : NodeFs) (this : t) (paths : list string)
    (services : list ServiceConfg) : Io (list ServiceConfg) :=
  match paths with
  | [] => mret services
  | fp :: rest =>
    service ← findServiceConfigs fs this fp;
    collect_loop fs this rest
      match service with
      | Some service => push services service
      | None => services
      end
  end.

Definition collect (fs : NodeFs) (this : t) : Io (list ServiceConfg) :=
  collect_loop fs this (folderPaths this) [].

Definition collectBase (fs : NodeFs) (this : t) : Io EnvoyConfig :=
  baseConfig ← YamlTools.read_yaml fs (baseConfigPath this);
  match baseConfig with
  | Some (DocTruthy _ _ sr) => mret {| static_resources := sr |}
  | _ => io_throw (Error ("base envoy config not found at " +:+ baseConfigPath this))
  end.

End ConfigDiscover.

(** * [EnvoyProxyPlugin]: the entry point *)

Module EnvoyProxyPlugin.

(** A value of [request.options]. *)
Inductive OptionValue : Type :=
  | OptString (s : string)
  | OptArray (a : list string)
  | OptOther.

Record Options : Type := mkOptions {
  items : list string;
  rootPath : string;
  output : string;
  base : string;
  folderName : string
}.

(** What [result] holds: the JSON text of a document, or a message. *)
Inductive ExecutionResponse : Type :=
  | Json (compiledConfig : EnvoyConfig)
  | Text (message : string).

Definition default_options : Options :=
  {| items := []; rootPath := ""; output := ""; base := ""; folderName := "envoy" |}.

(** The body of the loop over [Object.entries(request.options || {})]. *)
Definition set_option (options : Options) (entry : string * OptionValue) : Options :=
  let '(key, value) := entry in
  let options :=
    match value with
    | OptString value =>
      let options :=
        if String.eqb key "root-path" then
          {| items := items options; rootPath := value; output := output options;
             base := base options; folderName := folderName options |}
        else options in
      let options :=
        if String.eqb key "base" then
          {| items := items options; rootPath := rootPath options; output := output options;
             base := value; folderName := folderName options |}
        else options in
      let options :=
        if String.eqb key "output" then
          {| items := items options; rootPath := rootPath options; output := value;
             base := base options; folderName := folderName options |}
        else options in
      if String.eqb key "folder-name" then
        {| items := items options; rootPath := rootPath options; output := output options;
           base := base options; folderName := value |}
      else options
    | _ => options
    end in
  match value with
  | OptArray value =>
    if String.eqb key "items" then
      {| items := value; rootPath := rootPath options; output := output options;
         base := base options; folderName := folderName options |}
    else options
  | _ => options
  end.

Definition parse_options (request_options : option (list (string * OptionValue)))
    : Options :=
  fold_left set_option (default [] request_options) default_options.

Definition discovery_of (options : Options) : ConfigDiscover.t :=
  ConfigDiscover.constructor (items options) (base options) (Some (folderName options)).

Definition execute (fs : NodeFs) (request_options : option (list (string * OptionValue)))
    : Io ExecutionResponse :=
  try_catch
    (let options := parse_options request_options in
     let discovery := discovery_of options in
     services ← ConfigDiscover.collect fs discovery;
     baseConfig ← ConfigDiscover.collectBase fs discovery;
     let '(completed, compiledConfig) := Compiler.run (Some baseConfig) services in
     lift completed;;
     match compiledConfig with
     | None => io_throw (Error "envoy proxy configuration compilation failed")
     | Some compiledConfig =>
       YamlTools.write_yaml compiledConfig (output options);;
       mret (Json compiledConfig)
     end)
    (fun error => mret (Text ("Error: " +:+ error_message error))).

End EnvoyProxyPlugin.

(** * Example documents *)

Module Examples.

Definition route (prefix : string) : option Route :=
  Some {| match_prefix := prefix; route_cluster := None |}.

(** A base document whose virtual-host path resolves. *)
Definition base_with (ls : option (list Listener)) (cs : list Cluster) : EnvoyConfig :=
  {| static_resources := Some {| listeners := ls; clusters := cs |} |}.

Definition listener_with (vhs : option (list VirtualHost)) : Listener :=
  {| listener_name := "listener_1";
     filter_chains := Some [
       {| filters := Some [
            {| filter_name := "envoy.filters.network.http_connection_manager";
               typed_config := Some
                 {| stat_prefix := None;
                    route_config := Some
                      {| rc_name := "local_route"; virtual_hosts := vhs |} |} |} ] |} ] |}.

Definition vhost (rs : RouteArray) : VirtualHost :=
  {| vh_name := "vh1"; vh_domains := ["*"]; routes := rs |}.

Definition resolved_base (rs : RouteArray) (cs : list Cluster) : EnvoyConfig :=
  base_with (Some [listener_with (Some [vhost rs])]) cs.

(** The scenario of the specification. *)
Definition scenario_base : EnvoyConfig :=
  resolved_base [route "/health"]
    [ {| name := "existing_cluster"; type := None |} ].

Definition fragment1 : ServiceConfg :=
  {| sc_clusters := Some [ {| name := "svc1"; type := None |} ];
     sc_routes := Some [route "/v1"] |}.

Definition fragment2 : ServiceConfg :=
  {| sc_clusters := Some [ {| name := "existing_cluster"; type := Some "new" |} ];
     sc_routes := Some [route "/v2"] |}.

(** A base document that lists the same cluster name twice. *)
Definition duplicated_base : EnvoyConfig :=
  resolved_base []
    [ {| name := "a"; type := Some "first" |};
      {| name := "a"; type := Some "second" |} ].

Definition redefine_a : ServiceConfg :=
  {| sc_clusters := Some [ {| name := "a"; type := Some "merged" |} ];
     sc_routes := Some [] |}.

(** A base document without a [listeners] key. *)
Definition no_listeners_base : EnvoyConfig := base_with None [].

(** Fragments as a caller may build them by hand. *)
Definition empty_fragment : ServiceConfg :=
  {| sc_clusters := Some []; sc_routes := Some [] |}.

Definition routes_absent : ServiceConfg :=
  {| sc_clusters := Some []; sc_routes := None |}.

Definition clusters_absent : ServiceConfg :=
  {| sc_clusters := None; sc_routes := Some [route "/x"] |}.

(** A small file system.

    - [svc1/envoy] holds four entries under [routes] (one of them is
      not YAML, one is a backup copy, one does not parse) and one file
      under [clusters];
    - [svc2] has no [envoy] folder;
    - [gone] cannot be listed;
    - [svc3/envoy] holds one file under [routes] and no [clusters]. *)
Fixpoint assoc {A} (k : string) (l : list (string * A)) : option A :=
  match l with
  | [] => None
  | (k', v) :: rest => if String.eqb k k' then Some v else assoc k rest
  end.

Definition directories : list (string * list string) :=
  [ ("svc1", ["envoy"; "src"; "README.md"]);
    ("svc1/envoy", ["routes"; "clusters"]);
    ("svc1/envoy/routes", ["a.yaml"; "broken.yaml"; "b.yaml.bak"; "notes.txt"; "z.yaml"]);
    ("svc1/envoy/clusters", ["c.yaml"]);
    ("svc1/src", []);
    ("svc2", ["src"]);
    ("svc2/src", []);
    ("svc3", ["envoy"]);
    ("svc3/envoy", ["routes"]);
    ("svc3/envoy/routes", ["r.yaml"]) ].

Definition file_texts : list (string * string) :=
  [ ("svc1/README.md", "readme");
    ("svc1/envoy/routes/a.yaml", "routes: [/a1, /a2]");
    ("svc1/envoy/routes/broken.yaml", "routes: [");
    ("svc1/envoy/routes/b.yaml.bak", "routes: [/old]");
    ("svc1/envoy/routes/notes.txt", "routes: [/notes]");
    ("svc1/envoy/routes/z.yaml", "routes: [/z]");
    ("svc1/envoy/clusters/c.yaml", "clusters: [svc1]");
    ("svc3/envoy/routes/r.yaml", "routes: [/r]");
    ("base.yaml", "base") ].

Definition parsed : list (string * YamlDoc) :=
  [ ("readme", DocTruthy PropMissing PropMissing None);
    ("routes: [/a1, /a2]", DocTruthy (PropArray [route "/a1"; route "/a2"]) PropMissing None);
    ("routes: [/old]", DocTruthy (PropArray [route "/old"]) PropMissing None);
    ("routes: [/notes]", DocTruthy (PropArray [route "/notes"]) PropMissing None);
    ("routes: [/z]", DocTruthy (PropArray [route "/z"]) PropMissing None);
    ("clusters: [svc1]",
       DocTruthy PropMissing (PropArray [ {| name := "svc1"; type := None |} ]) None);
    ("routes: [/r]", DocTruthy (PropArray [route "/r"]) PropMissing None);
    ("base", DocTruthy PropMissing PropMissing (static_resources scenario_base)) ].

Definition fs : NodeFs :=
  {| fs_readdir := fun p => assoc p directories;
     fs_lstat := fun p =>
       match assoc p directories, assoc p file_texts with
       | Some _, _ => Some StatDirectory
       | None, Some _ => Some StatFile
       | None, None => None
       end;
     fs_readFile := fun p => assoc p file_texts;
     yaml_load := fun text => assoc text parsed;
     join := fun a b => a +:+ "/" +:+ b |}.

Definition request (base_path : string) (services : list string)
    : option (list (string * EnvoyProxyPlugin.OptionValue)) :=
  Some [ ("base", EnvoyProxyPlugin.OptString base_path);
         ("output", EnvoyProxyPlugin.OptString "out.yaml");
         ("items", EnvoyProxyPlugin.OptArray services) ].

End Examples.

(** * Observations on a document *)

(** The first virtual host of the first filter of the first filter chain of
    the first listener, when every level is present and not empty. *)
Definition firstVirtualHost (cfg : EnvoyConfig) : option VirtualHost :=
  sr ← static_resources cfg;
  ls ← listeners sr;
  l0 ← head ls;
  fcs ← filter_chains l0;
  fc0 ← head fcs;
  fs ← filters fc0;
  f0 ← head fs;
  tc ← typed_config f0;
  rc ← route_config tc;
  vhs ← virtual_hosts rc;
  head vhs.

Definition routeList (cfg : EnvoyConfig) : option RouteArray :=
  routes <$> firstVirtualHost cfg.

Definition clusterList (cfg : EnvoyConfig) : list Cluster :=
  default [] (clusters <$> static_resources cfg).

Definition listenersPresent (cfg : EnvoyConfig) : Prop :=
  exists sr ls, static_resources cfg = Some sr /\ listeners sr = Some ls.

(** The clusters of a sequence of fragments, in the order they are merged. *)
Definition writes (ss : list ServiceConfg) : list Cluster :=
  flat_map (fun s => default [] (sc_clusters s)) ss.

(** The last cluster of that name in a sequence of clusters. *)
Definition lastWrite (n : string) (cs : list Cluster) : option Cluster :=
  last (filter (fun c => name c = n) cs).

(** The cluster loop of [mergeConfig] on the cluster array. *)
Definition mergeClusters (cs : list Cluster) (acc : list Cluster) : list Cluster :=
  fold_left (fun acc c => Compiler.mergeCluster c acc) cs acc.

(** The fragments whose [clusters] can be iterated. *)
Definition iterable (s : ServiceConfg) : Prop := is_Some (sc_clusters s).

(** The successive [concat] calls of [addRoute], one per fragment. *)
Definition appendRoutes (ss : list ServiceConfg) (r : RouteArray) : RouteArray :=
  fold_left concat (sc_routes <$> ss) r.

(** The routes of a sequence of fragments, concatenated in fragment order,
    and the number of routes of one fragment. *)
Definition fragmentRoutes (ss : list ServiceConfg) : RouteArray :=
  flat_map (fun s => default [] (sc_routes s)) ss.

Definition routeCount (s : ServiceConfg) : nat :=
  length (default [] (sc_routes s)).

(** The test of the [findIndex] call of [mergeConfig]. *)
Definition sameName (c : Cluster) : Cluster -> bool :=
  fun cluster => String.eqb (name c) (name cluster).

(** * Observations on the file system *)

(** The document a file parses to, if it can be read and parsed. *)
Definition parseFile (fs : NodeFs) (path : string) : option YamlDoc :=
  text ← fs_readFile fs path; yaml_load fs text.

(** A valid routes file and its entries: the file can be read, it parses,
    and the document has a [routes] array.  Every other file is malformed
    or wrongly shaped. *)
Definition validRoutes (fs : NodeFs) (path : string) : option RouteArray :=
  match parseFile fs path with
  | Some (DocTruthy (PropArray rs) _ _) => Some rs
  | _ => None
  end.

Definition validClusters (fs : NodeFs) (path : string) : option (list Cluster) :=
  match parseFile fs path with
  | Some (DocTruthy _ (PropArray cs) _) => Some cs
  | _ => None
  end.

Definition isYaml (f : string) : bool := includes f ".yaml".

Definition isFile (fs : NodeFs) (dir item : string) : bool :=
  match fs_lstat fs (join fs dir item) with Some StatFile => true | _ => false end.

Definition isDirectory (fs : NodeFs) (dir item : string) : bool :=
  match fs_lstat fs (join fs dir item) with Some StatDirectory => true | _ => false end.

(** The files read along a trace. *)
Definition filesRead (t : list FsEvent) : list string :=
  omap (fun e => match e with ReadFile p => Some p | _ => None end) t.

(** The fragment that discovery finds for one service directory. *)
Definition discovered (fs : NodeFs) (this : ConfigDiscover.t) (folderPath : string)
    : option ServiceConfg :=
  match value (ConfigDiscover.findServiceConfigs fs this folderPath) with
  | Normal service => service
  | Thrown _ => None
  end.

(** * Observations used by the further properties *)

(** A document with its two merge targets blanked: the cluster list and the
    routes of the first virtual host.  Two documents with the same frame
    differ at most in these two lists. *)
Definition frame (cfg : EnvoyConfig) : EnvoyConfig :=
  match static_resources cfg with
  | None => cfg
  | Some sr =>
    {| static_resources := Some
         {| clusters := [];
            listeners :=
              match listeners sr with
              | Some (l0 :: ls) =>
                Some
                  ({| listener_name := listener_name l0;
                      filter_chains :=
                        match filter_chains l0 with
                        | Some (fc0 :: fcs) =>
                          Some
                            ({| filters :=
                                  match filters fc0 with
                                  | Some (f0 :: fs) =>
                                    Some
                                      ({| filter_name := filter_name f0;
                                          typed_config :=
                                            match typed_config f0 with
                                            | Some tc =>
                                              Some
                                                {| stat_prefix := stat_prefix tc;
                                                   route_config :=
                                                     match route_config tc with
                                                     | Some rc =>
                                                       Some
                                                         {| rc_name := rc_name rc;
                                                            virtual_hosts :=
                                                              match virtual_hosts rc with
                                                              | Some (vh0 :: vhs) =>
                                                                Some
                                                                  ({| vh_name := vh_name vh0;
                                                                      vh_domains := vh_domains vh0;
                                                                      routes := [] |} :: vhs)
                                                              | other => other
                                                              end |}
                                                     | None => None
                                                     end |}
                                            | None => None
                                            end |} :: fs)
                                  | other => other
                                  end |} :: fcs)
                        | other => other
                        end |} :: ls)
              | other => other
              end |} |}
  end.

(** The files written along a trace, with what was written. *)
Definition filesWritten (t : list FsEvent) : list (string * EnvoyConfig) :=
  omap (fun e => match e with WriteFile p data => Some (p, data) | _ => None end) t.

(** The key of an entry of [request.options] and the value of a key. *)
Definition optionValue (key : string)
    (entries : list (string * EnvoyProxyPlugin.OptionValue))
    : option EnvoyProxyPlugin.OptionValue :=
  snd <$> List.find (fun entry => String.eqb (fst entry) key) entries.

(** A method that neither reads nor writes the field [serviceConfigs]. *)
Definition oblivious {A} (f : St Compiler.t A) : Prop :=
  forall a b st,
    f (Compiler.mk a st) =
    (fst (f (Compiler.mk b st)), Compiler.mk a (Compiler.store (snd (f (Compiler.mk b st))))).

(** A computation that writes no file. *)
Definition writeFree {A} (m : Io A) : Prop := filesWritten (trace m) = [].

(** An entry of a directory that [lstatSync] can examine. *)
Definition statable (fs : NodeFs) (dir item : string) : bool :=
  match fs_lstat fs (join fs dir item) with Some _ => true | None => false end.

(** The two folders of fragment files of a service directory. *)
Definition routesFolder (fs : NodeFs) (this : ConfigDiscover.t) (p : string) : string :=
  join fs (join fs p (ConfigDiscover.configFolderName this)) "routes".

Definition clustersFolder (fs : NodeFs) (this : ConfigDiscover.t) (p : string) : string :=
  join fs (join fs p (ConfigDiscover.configFolderName this)) "clusters".

(** Further example file systems. *)
Module MoreExamples.

(** [svc4/envoy] is a symbolic link to a folder of fragment files;
    [svc5] holds an entry that cannot be examined; [svc6/envoy] is empty;
    [svc7/envoy] has a [clusters] folder and no [routes] folder. *)
Definition directories : list (string * list string) :=
  [ ("svc4", ["envoy"]);
    ("svc4/envoy", ["routes"]);
    ("svc4/envoy/routes", ["r.yaml"]);
    ("svc5", ["envoy"; "locked"]);
    ("svc5/envoy", ["routes"]);
    ("svc5/envoy/routes", ["r.yaml"]);
    ("svc6", ["envoy"]);
    ("svc6/envoy", []);
    ("svc7", ["envoy"]);
    ("svc7/envoy", ["clusters"]);
    ("svc7/envoy/clusters", ["c.yaml"]) ].

Definition file_texts : list (string * string) :=
  [ ("svc4/envoy/routes/r.yaml", "routes: [/r]");
    ("svc5/envoy/routes/r.yaml", "routes: [/r]");
    ("svc7/envoy/clusters/c.yaml", "clusters: [svc1]");
    ("bare.yaml", "bare");
    ("nolisteners.yaml", "nolisteners");
    ("base.yaml", "base") ].

Definition parsed : list (string * YamlDoc) :=
  [ ("routes: [/r]", DocTruthy (PropArray [Examples.route "/r"]) PropMissing None);
    ("clusters: [svc1]",
       DocTruthy PropMissing (PropArray [ {| name := "svc1"; type := None |} ]) None);
    ("bare", DocTruthy PropMissing PropMissing None);
    ("nolisteners",
       DocTruthy PropMissing PropMissing (static_resources Examples.no_listeners_base));
    ("base", DocTruthy PropMissing PropMissing (static_resources Examples.scenario_base)) ].

Definition fs : NodeFs :=
  {| fs_readdir := fun p => Examples.assoc p directories;
     fs_lstat := fun p =>
       if String.eqb p "svc4/envoy" then Some StatOther
       else if String.eqb p "svc5/locked" then None
       else
         match Examples.assoc p directories, Examples.assoc p file_texts with
         | Some _, _ => Some StatDirectory
         | None, Some _ => Some StatFile
         | None, None => None
         end;
     fs_readFile := fun p => Examples.assoc p file_texts;
     yaml_load := fun text => Examples.assoc text parsed;
     join := fun a b => a +:+ "/" +:+ b |}.

End MoreExamples.

(** Two records of options that agree on the fields [execute] reads. *)
Definition sameUsed (o1 o2 : EnvoyProxyPlugin.Options) : Prop :=
  EnvoyProxyPlugin.items o1 = EnvoyProxyPlugin.items o2 /\
  EnvoyProxyPlugin.base o1 = EnvoyProxyPlugin.base o2 /\
  EnvoyProxyPlugin.output o1 = EnvoyProxyPlugin.output o2 /\
  EnvoyProxyPlugin.folderName o1 = EnvoyProxyPlugin.folderName o2.

(** The entries of [request.options] other than ["root-path"]. *)
Definition withoutRootPath (entries : list (string * EnvoyProxyPlugin.OptionValue))
    : list (string * EnvoyProxyPlugin.OptionValue) :=
  List.filter (fun entry => negb (String.eqb (fst entry) "root-path")) entries.

(** * Properties of the array primitives *)

Section FindIndex.
Context {A : Type} (p : A -> bool).

Lemma findIndex_none (l : list A) :
  Forall (fun x => p x = false) l -> findIndex p l = (-1)%Z.
Proof.
  induction 1 as [|x l Hx _ IH]; simpl; [reflexivity|].
  rewrite Hx, IH. reflexivity.
Qed.

Lemma findIndex_first (l1 : list A) (x : A) (l2 : list A) :
  Forall (fun y => p y = false) l1 -> p x = true ->
  findIndex p (l1 ++ x :: l2) = Z.of_nat (length l1).
Proof.
  intros Hl1 Hx. induction Hl1 as [|y l1 Hy _ IH]; simpl.
  - rewrite Hx. reflexivity.
  - rewrite Hy, IH.
    destruct (Z.eqb_spec (Z.of_nat (length l1)) (-1)); lia.
Qed.

Lemma split_first (l : list A) :
  Forall (fun x => p x = false) l \/
  exists l1 x l2, l = l1 ++ x :: l2 /\ Forall (fun y => p y = false) l1 /\ p x = true.
Proof.
  induction l as [|x l IH]; [left; constructor|].
  destruct (p x) eqn:Hx.
  - right. exists [], x, l. repeat split; [constructor | assumption].
  - destruct IH as [IH | (l1 & y & l2 & -> & Hl1 & Hy)].
    + left. constructor; assumption.
    + right. exists (x :: l1), y, l2. repeat split; [constructor|]; assumption.
Qed.

End FindIndex.

Lemma array_set_middle {A} (l1 : list A) (old v : A) (l2 : list A) :
  array_set (l1 ++ old :: l2) (Z.of_nat (length l1)) v = l1 ++ v :: l2.
Proof.
  unfold array_set. rewrite Nat2Z.id.
  induction l1 as [|y l1 IH]; simpl; [reflexivity|].
  f_equal. exact IH.
Qed.

(** * Properties of the cluster merge *)

Lemma sameName_false (c c' : Cluster) : sameName c c' = false <-> name c' <> name c.
Proof.
  unfold sameName. rewrite String.eqb_neq. split; intros H E; apply H; congruence.
Qed.

Lemma sameName_true (c c' : Cluster) : sameName c c' = true <-> name c' = name c.
Proof.
  unfold sameName. rewrite String.eqb_eq. split; congruence.
Qed.

Lemma others_sameName (c : Cluster) (l : list Cluster) :
  Forall (fun c' => name c' <> name c) l <-> Forall (fun c' => sameName c c' = false) l.
Proof.
  split; intros H; eapply Forall_impl; try exact H;
    intros c'; cbv beta; apply sameName_false.
Qed.

Lemma mergeCluster_append (c : Cluster) (cs : list Cluster) :
  Forall (fun c' => name c' <> name c) cs ->
  Compiler.mergeCluster c cs = cs ++ [c].
Proof.
  intros H. unfold Compiler.mergeCluster. fold (sameName c).
  rewrite findIndex_none by (apply others_sameName; exact H).
  reflexivity.
Qed.

Lemma mergeCluster_replace (c : Cluster) (l1 : list Cluster) (old : Cluster) (l2 : list Cluster) :
  Forall (fun c' => name c' <> name c) l1 ->
  name old = name c ->
  Compiler.mergeCluster c (l1 ++ old :: l2) = l1 ++ c :: l2.
Proof.
  intros H Hold. unfold Compiler.mergeCluster. fold (sameName c).
  rewrite findIndex_first;
    [| apply others_sameName; exact H | apply sameName_true; exact Hold].
  destruct (Z.eqb_spec (Z.of_nat (length l1)) (-1)); [lia|].
  apply array_set_middle.
Qed.

(** Every cluster array is in one of the two situations. *)
Lemma cluster_cases (c : Cluster) (cs : list Cluster) :
  Forall (fun c' => name c' <> name c) cs \/
  exists l1 old l2, cs = l1 ++ old :: l2 /\
    Forall (fun c' => name c' <> name c) l1 /\ name old = name c.
Proof.
  destruct (split_first (sameName c) cs) as [H | (l1 & old & l2 & -> & H1 & H2)].
  - left. apply others_sameName, H.
  - right. exists l1, old, l2. repeat split.
    + apply others_sameName, H1.
    + apply sameName_true, H2.
Qed.

Lemma mergeCluster_names (c : Cluster) (cs : list Cluster) :
  (name <$> Compiler.mergeCluster c cs) = (name <$> cs) \/
  ((name c ∉ (name <$> cs)) /\
   (name <$> Compiler.mergeCluster c cs) = (name <$> cs) ++ [name c]).
Proof.
  destruct (cluster_cases c cs) as [H | (l1 & old & l2 & -> & H1 & H2)].
  - right. rewrite mergeCluster_append by exact H. split.
    + intros Hin. apply list_elem_of_fmap in Hin as (c' & Heq & Hc').
      rewrite Forall_forall in H. apply (H c'); [exact Hc' | congruence].
    + rewrite fmap_app. reflexivity.
  - left. rewrite mergeCluster_replace by assumption.
    rewrite !fmap_app, !fmap_cons. congruence.
Qed.

Lemma mergeCluster_NoDup (c : Cluster) (cs : list Cluster) :
  NoDup (name <$> cs) -> NoDup (name <$> Compiler.mergeCluster c cs).
Proof.
  intros Hnd. destruct (mergeCluster_names c cs) as [-> | [Hnew ->]]; [exact Hnd|].
  apply NoDup_app. split; [exact Hnd|]. split.
  - intros x Hx Hx'. apply list_elem_of_singleton in Hx'. subst. contradiction.
  - apply NoDup_singleton.
Qed.

Lemma mergeCluster_written (c : Cluster) (cs : list Cluster) :
  c ∈ Compiler.mergeCluster c cs.
Proof.
  destruct (cluster_cases c cs) as [H | (l1 & old & l2 & -> & H1 & H2)].
  - rewrite mergeCluster_append by exact H. set_solver.
  - rewrite mergeCluster_replace by assumption. set_solver.
Qed.

Lemma mergeCluster_other (c c0 : Cluster) (cs : list Cluster) :
  c0 ∈ cs -> name c0 <> name c -> c0 ∈ Compiler.mergeCluster c cs.
Proof.
  intros Hin Hne.
  destruct (cluster_cases c cs) as [H | (l1 & old & l2 & -> & H1 & H2)].
  - rewrite mergeCluster_append by exact H. set_solver.
  - rewrite mergeCluster_replace by assumption.
    rewrite !elem_of_app, !elem_of_cons in *.
    destruct Hin as [?|[->|?]]; [tauto | congruence | tauto].
Qed.

(** * What the methods of [Compiler] do to the store *)

Ltac st_unfold :=
  unfold mbind, mret, St_bind, St_ret, get, put, throw, Compiler.set_store in *.

Lemma mergeClusters_snoc (cs : list Cluster) (c : Cluster) (acc : list Cluster) :
  mergeClusters (cs ++ [c]) acc = Compiler.mergeCluster c (mergeClusters cs acc).
Proof. unfold mergeClusters. rewrite fold_left_app. reflexivity. Qed.

Lemma mergeClusters_app (cs1 cs2 : list Cluster) (acc : list Cluster) :
  mergeClusters (cs1 ++ cs2) acc = mergeClusters cs2 (mergeClusters cs1 acc).
Proof. unfold mergeClusters. apply fold_left_app. Qed.

Lemma clusterLoop_store (ss : list ServiceConfg) (cs : list Cluster) (sr : StaticResources) :
  for_of cs Compiler.mergeClusterStmt
    (Compiler.mk ss (Some {| static_resources := Some sr |})) =
  (Normal tt,
   Compiler.mk ss (Some {| static_resources :=
     Some {| listeners := listeners sr;
             clusters := mergeClusters cs (clusters sr) |} |})).
Proof.
  revert sr. induction cs as [|c cs IH]; intros sr; simpl.
  - destruct sr; reflexivity.
  - unfold Compiler.mergeClusterStmt at 1. st_unfold. simpl.
    rewrite IH. reflexivity.
Qed.

(** [addRoute] on a document whose [listeners] array exists. *)
Lemma addRoute_store (ss : list ServiceConfg) (cfg : EnvoyConfig) (arg : option RouteArray) :
  listenersPresent cfg ->
  exists cfg',
    Compiler.addRoute arg (Compiler.mk ss (Some cfg)) = (Normal tt, Compiler.mk ss (Some cfg')) /\
    listenersPresent cfg' /\
    clusterList cfg' = clusterList cfg /\
    routeList cfg' = (fun r => concat r arg) <$> routeList cfg /\
    (routeList cfg = None \/ arg = Some [] -> cfg' = cfg).
Proof.
  intros (sr & ls & Hsr & Hls).
  destruct cfg as [osr]. simpl in Hsr. subst osr.
  destruct sr as [ols cs]. simpl in Hls. subst ols.
  unfold Compiler.addRoute, routeList, firstVirtualHost. st_unfold. simpl.
  destruct ls as [|[ln [[|[[[|[fname [[sp [[rcn [[|[vhn vhd vhr] vhs]|]]|]]|]] fs]|]] fcs]|]] ls];
    simpl;
    (eexists; split; [reflexivity|];
     split; [eexists _, _; split; reflexivity|];
     split; [reflexivity|]; split; [reflexivity|];
     intros [H | ->]; first [reflexivity | discriminate H | idtac]).
  simpl. rewrite app_nil_r. reflexivity.
Qed.

(** [mergeConfig] for a fragment whose [clusters] is an array. *)
Lemma mergeConfig_store (ss : list ServiceConfg) (cfg : EnvoyConfig)
    (s : ServiceConfg) (cs : list Cluster) :
  listenersPresent cfg -> sc_clusters s = Some cs ->
  exists cfg',
    Compiler.mergeConfig s (Compiler.mk ss (Some cfg)) = (Normal tt, Compiler.mk ss (Some cfg')) /\
    listenersPresent cfg' /\
    clusterList cfg' = mergeClusters cs (clusterList cfg) /\
    routeList cfg' = (fun r => concat r (sc_routes s)) <$> routeList cfg /\
    (routeList cfg = None \/ sc_routes s = Some [] -> cs = [] -> cfg' = cfg).
Proof.
  intros Hp Hcs.
  pose proof Hp as (sr & ls & Hsr & Hls).
  destruct cfg as [osr]. simpl in Hsr. subst osr.
  set (cfg1 := {| static_resources :=
     Some {| listeners := listeners sr;
             clusters := mergeClusters cs (clusters sr) |} |}).
  assert (Hp1 : listenersPresent cfg1).
  { eexists _, ls. split; [reflexivity | exact Hls]. }
  destruct (addRoute_store ss cfg1 (sc_routes s) Hp1)
    as (cfg' & Hrun & Hp' & Hcl & Hrl & Hsame).
  exists cfg'. split; [|split; [exact Hp'|split; [exact Hcl|split]]].
  - unfold Compiler.mergeConfig. st_unfold. simpl. rewrite Hcs.
    rewrite clusterLoop_store. exact Hrun.
  - rewrite Hrl. reflexivity.
  - intros Hnone ->. rewrite Hsame.
    + unfold cfg1. simpl. destruct sr; reflexivity.
    + destruct Hnone as [Hnone | Hnone]; [left; exact Hnone | right; exact Hnone].
Qed.

Lemma build_loop_store (ss0 ss : list ServiceConfg) (cfg : EnvoyConfig) :
  listenersPresent cfg -> Forall iterable ss ->
  exists cfg',
    Compiler.build_loop ss (Compiler.mk ss0 (Some cfg)) = (Normal tt, Compiler.mk ss0 (Some cfg')) /\
    listenersPresent cfg' /\
    clusterList cfg' = mergeClusters (writes ss) (clusterList cfg) /\
    routeList cfg' = appendRoutes ss <$> routeList cfg.
Proof.
  intros Hp Hss. revert cfg Hp.
  induction Hss as [|s ss [cs Hcs] _ IH]; intros cfg Hp.
  - exists cfg. repeat split; try assumption.
    destruct (routeList cfg); reflexivity.
  - destruct (mergeConfig_store ss0 cfg s cs Hp Hcs)
      as (cfg1 & Hrun1 & Hp1 & Hcl1 & Hrl1 & _).
    destruct (IH cfg1 Hp1) as (cfg' & Hrun & Hp' & Hcl & Hrl).
    exists cfg'. split; [|split; [exact Hp'|split]].
    + simpl. st_unfold. simpl. rewrite Hrun1. exact Hrun.
    + rewrite Hcl, Hcl1. unfold writes. simpl. rewrite Hcs. simpl.
      rewrite mergeClusters_app. reflexivity.
    + rewrite Hrl, Hrl1. destruct (routeList cfg); reflexivity.
Qed.

Lemma run_store (ss : list ServiceConfg) (cfg : EnvoyConfig) :
  listenersPresent cfg -> Forall iterable ss ->
  exists cfg',
    Compiler.run (Some cfg) ss = (Normal tt, Some cfg') /\
    listenersPresent cfg' /\
    clusterList cfg' = mergeClusters (writes ss) (clusterList cfg) /\
    routeList cfg' = appendRoutes ss <$> routeList cfg.
Proof.
  intros Hp Hss.
  destruct (build_loop_store ss ss cfg Hp Hss) as (cfg' & Hrun & Hrest).
  exists cfg'. split; [|exact Hrest].
  unfold Compiler.run, Compiler.build, Compiler.constructor. st_unfold. simpl.
  rewrite Hrun. reflexivity.
Qed.

Lemma routeList_listenersPresent (cfg : EnvoyConfig) (r : RouteArray) :
  routeList cfg = Some r -> listenersPresent cfg.
Proof.
  unfold routeList, firstVirtualHost, listenersPresent.
  destruct cfg as [[[[ls|] cs]|]]; simpl; try discriminate.
  intros _. eexists _, _. split; reflexivity.
Qed.

Lemma appendRoutes_arrays (ss : list ServiceConfg) (r : RouteArray) :
  Forall (fun s => is_Some (sc_routes s)) ss ->
  appendRoutes ss r = r ++ fragmentRoutes ss.
Proof.
  intros Hss. revert r. unfold appendRoutes, fragmentRoutes.
  induction Hss as [|s ss [rs Hrs] _ IH]; intros r; simpl.
  - rewrite app_nil_r. reflexivity.
  - rewrite IH, Hrs. simpl. rewrite app_assoc. reflexivity.
Qed.

Lemma fragmentRoutes_length (ss : list ServiceConfg) :
  length (fragmentRoutes ss) = sum_list (routeCount <$> ss).
Proof.
  unfold fragmentRoutes, routeCount.
  induction ss as [|s ss IH]; simpl; [reflexivity|].
  rewrite length_app, IH. reflexivity.
Qed.

(** ** Uniqueness of names and the last write *)

Lemma mergeClusters_NoDup (cs acc : list Cluster) :
  NoDup (name <$> acc) -> NoDup (name <$> mergeClusters cs acc).
Proof.
  revert acc. induction cs as [|c cs IH]; intros acc Hnd; [exact Hnd|].
  apply (IH (Compiler.mergeCluster c acc)), mergeCluster_NoDup, Hnd.
Qed.

Lemma lastWrite_snoc (n : string) (cs : list Cluster) (c : Cluster) :
  lastWrite n (cs ++ [c]) = if decide (name c = n) then Some c else lastWrite n cs.
Proof.
  unfold lastWrite. rewrite filter_app, filter_cons, filter_nil.
  destruct (decide (name c = n)).
  - apply last_snoc.
  - rewrite app_nil_r. reflexivity.
Qed.

Lemma lastWrite_name (n : string) (cs : list Cluster) (c : Cluster) :
  lastWrite n cs = Some c -> name c = n.
Proof.
  unfold lastWrite. intros H.
  assert (Hin : c ∈ filter (fun c => name c = n) cs).
  { apply last_Some in H as [l' ->]. set_solver. }
  apply list_elem_of_filter in Hin. tauto.
Qed.

Lemma mergeClusters_lastWrite (n : string) (cs acc : list Cluster) (c : Cluster) :
  lastWrite n cs = Some c -> c ∈ mergeClusters cs acc.
Proof.
  revert c. induction cs as [|c1 cs IH] using rev_ind; intros c H.
  - discriminate H.
  - rewrite mergeClusters_snoc. rewrite lastWrite_snoc in H.
    destruct (decide (name c1 = n)) as [Heq | Hne].
    + injection H as ->. apply mergeCluster_written.
    + apply mergeCluster_other; [apply IH, H|].
      apply lastWrite_name in H. congruence.
Qed.

Lemma NoDup_names_unique (l : list Cluster) (c c' : Cluster) :
  NoDup (name <$> l) -> c ∈ l -> c' ∈ l -> name c = name c' -> c = c'.
Proof.
  induction l as [|x l IH]; intros Hnd Hc Hc' Hn; [inversion Hc|].
  rewrite fmap_cons in Hnd. apply NoDup_cons in Hnd as [Hx Hnd].
  apply elem_of_cons in Hc as [-> | Hc]; apply elem_of_cons in Hc' as [-> | Hc'].
  - reflexivity.
  - exfalso. apply Hx. rewrite Hn. apply list_elem_of_fmap. eauto.
  - exfalso. apply Hx. rewrite <- Hn. apply list_elem_of_fmap. eauto.
  - apply IH; assumption.
Qed.

(** ** Exceptions of the merge *)

Lemma mergeConfig_not_iterable (s : ServiceConfg) (this : Compiler.t) (cfg : EnvoyConfig) :
  Compiler.store this = Some cfg -> sc_clusters s = None ->
  Compiler.mergeConfig s this = (Thrown (TypeError "service.clusters is not iterable"), this).
Proof.
  intros Hst Hcs. unfold Compiler.mergeConfig. st_unfold. simpl.
  rewrite Hst, Hcs. reflexivity.
Qed.

Lemma mergeClusterStmt_keeps_store (c : Cluster) (this : Compiler.t) :
  is_Some (Compiler.store this) ->
  is_Some (Compiler.store (snd (Compiler.mergeClusterStmt c this))).
Proof.
  intros [cfg Hst]. unfold Compiler.mergeClusterStmt. st_unfold. simpl.
  rewrite Hst. destruct (static_resources cfg); simpl; [eauto | rewrite Hst; eauto].
Qed.

Lemma for_of_keeps_store (cs : list Cluster) (this : Compiler.t) :
  is_Some (Compiler.store this) ->
  is_Some (Compiler.store (snd (for_of cs Compiler.mergeClusterStmt this))).
Proof.
  revert this. induction cs as [|c cs IH]; intros this Hst; simpl; [exact Hst|].
  pose proof (mergeClusterStmt_keeps_store c this Hst) as H1.
  unfold mbind, St_bind.
  destruct (Compiler.mergeClusterStmt c this) as [[[]|e] this1]; simpl in *.
  - apply IH, H1.
  - exact H1.
Qed.

Lemma addRoute_keeps_store (arg : option RouteArray) (this : Compiler.t) :
  is_Some (Compiler.store this) ->
  is_Some (Compiler.store (snd (Compiler.addRoute arg this))).
Proof.
  intros [cfg Hst]. destruct this as [ss st]. simpl in Hst. subst st.
  unfold Compiler.addRoute. st_unfold. simpl.
  destruct cfg as [[[[ls|] cs]|]]; simpl; eauto.
  destruct ls as [|[ln [[|[[[|[fname [[sp [[rcn [[|vh0 vhs]|]]|]]|]] fs]|]] fcs]|]] ls];
    simpl; eauto.
Qed.

Lemma mergeConfig_keeps_store (s : ServiceConfg) (this : Compiler.t) :
  is_Some (Compiler.store this) ->
  is_Some (Compiler.store (snd (Compiler.mergeConfig s this))).
Proof.
  intros Hst. pose proof Hst as [cfg Hcfg].
  unfold Compiler.mergeConfig. st_unfold. simpl. rewrite Hcfg.
  destruct (sc_clusters s) as [cs|]; simpl; [|exact Hst].
  pose proof (for_of_keeps_store cs this Hst) as H1.
  destruct (for_of cs Compiler.mergeClusterStmt this) as [[[]|e] this1]; simpl in *.
  - apply addRoute_keeps_store, H1.
  - exact H1.
Qed.

Lemma build_loop_not_iterable (ss1 : list ServiceConfg) (s : ServiceConfg)
    (ss2 : list ServiceConfg) (this : Compiler.t) :
  is_Some (Compiler.store this) -> sc_clusters s = None ->
  exists e, fst (Compiler.build_loop (ss1 ++ s :: ss2) this) = Thrown e.
Proof.
  intros Hst Hs. revert this Hst.
  induction ss1 as [|s1 ss1 IH]; intros this Hst; pose proof Hst as [cfg Hcfg]; simpl.
  - st_unfold. simpl. rewrite Hcfg.
    rewrite (mergeConfig_not_iterable s this cfg Hcfg Hs). simpl. eauto.
  - st_unfold. simpl. rewrite Hcfg.
    pose proof (mergeConfig_keeps_store s1 this Hst) as H1.
    destruct (Compiler.mergeConfig s1 this) as [[[]|e] this1]; simpl in *.
    + apply IH, H1.
    + eauto.
Qed.

(** * The merge: clusters *)

(** C1, as stated, fails: a base document that already lists the name
    ["a"] twice keeps two entries of that name after the merge, also when
    a fragment redefines ["a"]. *)
Lemma C1_counterexample :
  exists final,
    Compiler.run (Some Examples.duplicated_base) [Examples.redefine_a] = (Normal tt, Some final) /\
    (name <$> clusterList final) = ["a"; "a"] /\
    ~ NoDup (name <$> clusterList final).
Proof.
  eexists. split; [reflexivity|]. split; [reflexivity|].
  simpl. intros H. apply NoDup_cons in H as [H _]. apply H. set_solver.
Qed.

(** C1 (amended): when the cluster list of the base document has no two
    entries of the same name (and [listeners] exists and every fragment
    has a cluster array, so that the merge completes), the merge
    completes, the final cluster list has at most one entry per name,
    and for every name written by some fragment the final entry of that
    name is the last one written, in the order of the input list. *)
Theorem C1_unique_names_last_write_wins (base : EnvoyConfig) (ss : list ServiceConfg) :
  listenersPresent base ->
  NoDup (name <$> clusterList base) ->
  Forall iterable ss ->
  exists final,
    Compiler.run (Some base) ss = (Normal tt, Some final) /\
    NoDup (name <$> clusterList final) /\
    forall n c, lastWrite n (writes ss) = Some c ->
      c ∈ clusterList final /\
      forall c', c' ∈ clusterList final -> name c' = n -> c' = c.
Proof.
  intros Hp Hnd Hss.
  destruct (run_store ss base Hp Hss) as (final & Hrun & _ & Hcl & _).
  exists final. split; [exact Hrun|].
  assert (Hnd' : NoDup (name <$> clusterList final)).
  { rewrite Hcl. apply mergeClusters_NoDup, Hnd. }
  split; [exact Hnd'|]. intros n c Hlast.
  assert (Hin : c ∈ clusterList final).
  { rewrite Hcl. eapply mergeClusters_lastWrite, Hlast. }
  split; [exact Hin|]. intros c' Hin' Hn.
  apply (NoDup_names_unique (clusterList final)); try assumption.
  apply lastWrite_name in Hlast. congruence.
Qed.

Lemma C1_witness :
  listenersPresent Examples.scenario_base /\
  exists final,
    Compiler.run (Some Examples.scenario_base) [Examples.fragment1; Examples.fragment2]
      = (Normal tt, Some final) /\
    NoDup (name <$> clusterList final) /\
    forall n c, lastWrite n (writes [Examples.fragment1; Examples.fragment2]) = Some c ->
      c ∈ clusterList final /\
      forall c', c' ∈ clusterList final -> name c' = n -> c' = c.
Proof.
  assert (Hp : listenersPresent Examples.scenario_base).
  { eexists _, _. split; reflexivity. }
  split; [exact Hp|].
  apply (C1_unique_names_last_write_wins Examples.scenario_base
           [Examples.fragment1; Examples.fragment2] Hp).
  - simpl. apply NoDup_singleton.
  - repeat constructor; eexists; reflexivity.
Defined.

(** C3: the body of the cluster loop replaces the first entry of the same
    name at its position, or appends the new cluster when there is none;
    on the scenario of the specification the merge ends with the
    clusters [existing_cluster] (redefined) and [svc1], in that order, and
    the routes [/health], [/v1], [/v2]. *)
Theorem C3_replace_in_place_or_append :
  (forall c l1 old l2,
     Forall (fun c' => name c' <> name c) l1 -> name old = name c ->
     Compiler.mergeCluster c (l1 ++ old :: l2) = l1 ++ c :: l2) /\
  (forall c cs,
     Forall (fun c' => name c' <> name c) cs ->
     Compiler.mergeCluster c cs = cs ++ [c]) /\
  exists final,
    Compiler.run (Some Examples.scenario_base) [Examples.fragment1; Examples.fragment2]
      = (Normal tt, Some final) /\
    clusterList final =
      [ {| name := "existing_cluster"; type := Some "new" |};
        {| name := "svc1"; type := None |} ] /\
    routeList final =
      Some [Examples.route "/health"; Examples.route "/v1"; Examples.route "/v2"].
Proof.
  split; [|split].
  - intros c l1 old l2. apply mergeCluster_replace.
  - intros c cs. apply mergeCluster_append.
  - eexists. split; [reflexivity|]. split; reflexivity.
Qed.

Lemma C3_witness :
  Compiler.mergeCluster {| name := "b"; type := Some "new" |}
    [ {| name := "a"; type := None |}; {| name := "b"; type := None |};
      {| name := "c"; type := None |} ] =
    [ {| name := "a"; type := None |}; {| name := "b"; type := Some "new" |};
      {| name := "c"; type := None |} ] /\
  Compiler.mergeCluster {| name := "d"; type := None |}
    [ {| name := "a"; type := None |} ] =
    [ {| name := "a"; type := None |}; {| name := "d"; type := None |} ].
Proof.
  split.
  - apply (proj1 C3_replace_in_place_or_append
             {| name := "b"; type := Some "new" |}
             [ {| name := "a"; type := None |} ]
             {| name := "b"; type := None |}
             [ {| name := "c"; type := None |} ]).
    + repeat constructor. simpl. discriminate.
    + reflexivity.
  - apply (proj1 (proj2 C3_replace_in_place_or_append)
             {| name := "d"; type := None |} [ {| name := "a"; type := None |} ]).
    repeat constructor. simpl. discriminate.
Defined.

(** C10: when the cluster list holds two entries of the name of the new
    cluster, only the first one is replaced; the later one stays, and the
    merged list still has two entries of that name. *)
Theorem C10_only_first_duplicate_replaced
    (c a b : Cluster) (l1 l2 l3 : list Cluster) :
  Forall (fun c' => name c' <> name c) l1 ->
  name a = name c -> name b = name c ->
  Compiler.mergeCluster c (l1 ++ a :: l2 ++ b :: l3) = l1 ++ c :: l2 ++ b :: l3 /\
  ~ NoDup (name <$> Compiler.mergeCluster c (l1 ++ a :: l2 ++ b :: l3)).
Proof.
  intros Hl1 Ha Hb.
  rewrite (mergeCluster_replace c l1 a (l2 ++ b :: l3) Hl1 Ha).
  split; [reflexivity|].
  rewrite fmap_app, fmap_cons, fmap_app, fmap_cons. intros Hnd.
  apply NoDup_app in Hnd as (_ & _ & Hnd).
  apply NoDup_cons in Hnd as [Hnd _]. apply Hnd.
  rewrite Hb. set_solver.
Qed.

Lemma C10_witness :
  Compiler.mergeCluster {| name := "a"; type := Some "merged" |}
      (clusterList Examples.duplicated_base) =
    [ {| name := "a"; type := Some "merged" |}; {| name := "a"; type := Some "second" |} ] /\
  ~ NoDup (name <$> Compiler.mergeCluster {| name := "a"; type := Some "merged" |}
                      (clusterList Examples.duplicated_base)).
Proof.
  apply (C10_only_first_duplicate_replaced
           {| name := "a"; type := Some "merged" |}
           {| name := "a"; type := Some "first" |}
           {| name := "a"; type := Some "second" |} [] [] []).
  - constructor.
  - reflexivity.
  - reflexivity.
Defined.

(** * The merge: routes *)

(** C2: when the virtual-host path of the base document resolves to the
    routes [r0] and every fragment has its two arrays, the merge completes
    and the routes of the first virtual host are [r0] followed by the
    routes of the fragments in fragment order; their number is the sum of
    the route counts. *)
Theorem C2_routes_appended_in_fragment_order
    (base : EnvoyConfig) (r0 : RouteArray) (ss : list ServiceConfg) :
  routeList base = Some r0 ->
  Forall (fun s => is_Some (sc_clusters s) /\ is_Some (sc_routes s)) ss ->
  exists final,
    Compiler.run (Some base) ss = (Normal tt, Some final) /\
    routeList final = Some (r0 ++ fragmentRoutes ss) /\
    length (r0 ++ fragmentRoutes ss) = length r0 + sum_list (routeCount <$> ss).
Proof.
  intros Hr0 Hss.
  assert (Hit : Forall iterable ss).
  { eapply Forall_impl; [exact Hss|]. intros s [H _]. exact H. }
  assert (Hrs : Forall (fun s => is_Some (sc_routes s)) ss).
  { eapply Forall_impl; [exact Hss|]. intros s [_ H]. exact H. }
  destruct (run_store ss base (routeList_listenersPresent base r0 Hr0) Hit)
    as (final & Hrun & _ & _ & Hrl).
  exists final. split; [exact Hrun|]. split.
  - rewrite Hrl, Hr0. simpl. rewrite appendRoutes_arrays by exact Hrs. reflexivity.
  - rewrite length_app, fragmentRoutes_length. reflexivity.
Qed.

Lemma C2_witness :
  exists final,
    Compiler.run (Some Examples.scenario_base) [Examples.fragment1; Examples.fragment2]
      = (Normal tt, Some final) /\
    routeList final =
      Some ([Examples.route "/health"] ++
            fragmentRoutes [Examples.fragment1; Examples.fragment2]) /\
    length ([Examples.route "/health"] ++
            fragmentRoutes [Examples.fragment1; Examples.fragment2]) =
      length [Examples.route "/health"] +
      sum_list (routeCount <$> [Examples.fragment1; Examples.fragment2]).
Proof.
  apply (C2_routes_appended_in_fragment_order Examples.scenario_base
           [Examples.route "/health"] [Examples.fragment1; Examples.fragment2]).
  - reflexivity.
  - repeat constructor; eexists; reflexivity.
Defined.

(** When [listeners] exists and some level of the virtual-host path is
    absent or empty, merging the routes of a fragment leaves the document
    as it is and does not throw. *)
Lemma addRoute_unresolved (ss : list ServiceConfg) (cfg : EnvoyConfig)
    (arg : option RouteArray) :
  listenersPresent cfg -> routeList cfg = None ->
  Compiler.addRoute arg (Compiler.mk ss (Some cfg)) = (Normal tt, Compiler.mk ss (Some cfg)).
Proof.
  intros Hp Hnone.
  destruct (addRoute_store ss cfg arg Hp) as (cfg' & Hrun & _ & _ & _ & Hsame).
  rewrite Hrun, Hsame by (left; exact Hnone). reflexivity.
Qed.

(** Without a [listeners] key, [addRoute] throws. *)
Lemma addRoute_absent_listeners (this : Compiler.t) (cs : list Cluster)
    (arg : option RouteArray) :
  Compiler.store this =
    Some {| static_resources := Some {| listeners := None; clusters := cs |} |} ->
  Compiler.addRoute arg this =
  (Thrown (TypeError "Cannot read properties of undefined (reading 'length')"), this).
Proof.
  intros Hst. unfold Compiler.addRoute. st_unfold. simpl. rewrite Hst. reflexivity.
Qed.

(** The earlier variant never tests [listeners.length] on an array: its
    [addRoute] returns the document it was given, so the routes of the
    fragments are not added. *)
Lemma variant_addRoute_discards (config : EnvoyConfig) (rs : RouteArray) :
  is_Some (static_resources config) ->
  CompilerVariant.addRoute config rs = Normal config.
Proof.
  intros [sr Hsr]. unfold CompilerVariant.addRoute. rewrite Hsr. reflexivity.
Qed.

Lemma variant_scenario :
  exists final,
    CompilerVariant.build [Examples.fragment1; Examples.fragment2]
      (Some Examples.scenario_base) = (Normal (Some final), Some final) /\
    routeList final = Some [Examples.route "/health"] /\
    clusterList final =
      [ {| name := "existing_cluster"; type := Some "new" |};
        {| name := "svc1"; type := None |} ].
Proof. eexists. split; [reflexivity|]. split; reflexivity. Qed.

(** C4: on a base document without a [listeners] key the route step of
    the merge throws a [TypeError] (the test of [addRoute] reads
    [listeners.length] without a test of [listeners]); the cluster of the
    fragment has been merged by then. *)
Theorem C4_absent_listeners_throws :
  firstVirtualHost Examples.no_listeners_base = None /\
  Compiler.run (Some Examples.no_listeners_base) [Examples.fragment1] =
    (Thrown (TypeError "Cannot read properties of undefined (reading 'length')"),
     Some (Examples.base_with None [ {| name := "svc1"; type := None |} ])).
Proof. split; reflexivity. Qed.

(** * The merge: fragments with an absent field *)

(** C9, as stated, fails: a fragment whose [routes] is absent and whose
    [clusters] is an array is merged without an exception; [concat]
    appends the value [undefined] to the routes. *)
Lemma C9_counterexample :
  sc_routes Examples.routes_absent = None /\
  exists final,
    Compiler.run (Some Examples.scenario_base) [Examples.routes_absent]
      = (Normal tt, Some final) /\
    routeList final = Some [Examples.route "/health"; None].
Proof. split; [reflexivity|]. eexists. split; reflexivity. Qed.

(** C9 (amended): a fragment whose [clusters] is absent makes [build]
    throw, whatever the base document and the other fragments are, and
    [build] does not catch it; a fragment with two empty arrays, merged
    into a base document that has a [listeners] array, completes and
    leaves the document as it was. *)
Theorem C9_absent_clusters_throw_empty_arrays_do_not
    (base : EnvoyConfig) (ss1 : list ServiceConfg) (s : ServiceConfg)
    (ss2 : list ServiceConfg) :
  sc_clusters s = None ->
  (exists e, fst (Compiler.run (Some base) (ss1 ++ s :: ss2)) = Thrown e) /\
  (listenersPresent base ->
   Compiler.run (Some base) [Examples.empty_fragment] = (Normal tt, Some base)).
Proof.
  intros Hs. split.
  - destruct (build_loop_not_iterable ss1 s ss2
                (Compiler.constructor (Some base) (ss1 ++ s :: ss2)))
      as [e He]; [eexists; reflexivity | exact Hs |].
    exists e. unfold Compiler.run, Compiler.build. st_unfold. simpl.
    unfold Compiler.constructor in He.
    destruct (Compiler.build_loop _ _) as [c this]. exact He.
  - intros Hp.
    destruct (mergeConfig_store [Examples.empty_fragment] base Examples.empty_fragment []
                Hp eq_refl) as (cfg' & Hrun & _ & _ & _ & Hsame).
    rewrite Hsame in Hrun by (try right; reflexivity).
    unfold Compiler.run, Compiler.build, Compiler.constructor. st_unfold.
    cbn [Compiler.build_loop Compiler.serviceConfigs Compiler.store].
    st_unfold. cbn [Compiler.store]. rewrite Hrun. reflexivity.
Qed.

Lemma C9_witness :
  (exists e, fst (Compiler.run (Some Examples.scenario_base)
                    ([Examples.fragment1] ++ Examples.clusters_absent :: [Examples.fragment2]))
             = Thrown e) /\
  (listenersPresent Examples.scenario_base ->
   Compiler.run (Some Examples.scenario_base) [Examples.empty_fragment]
     = (Normal tt, Some Examples.scenario_base)).
Proof.
  apply (C9_absent_clusters_throw_empty_arrays_do_not Examples.scenario_base
           [Examples.fragment1] Examples.clusters_absent [Examples.fragment2]).
  reflexivity.
Defined.

(** * Discovery *)

Ltac io_unfold :=
  unfold mbind, mret, Io_bind, Io_ret, try_catch, io_throw, lift, value, trace in *.

Lemma bind_eval {A B} (m : Io A) (k : A -> Io B) (a : A) (t : list FsEvent) :
  m = (Normal a, t) -> (m ≫= k) = (value (k a), t ++ trace (k a)).
Proof. intros ->. io_unfold. destruct (k a); reflexivity. Qed.

Lemma read_yaml_eval (fs : NodeFs) (path : string) :
  YamlTools.read_yaml fs path = (Normal (parseFile fs path), [ReadFile path]).
Proof.
  unfold YamlTools.read_yaml, readFileSync, parseFile. io_unfold.
  destruct (fs_readFile fs path) as [text|]; simpl; [|reflexivity].
  destruct (yaml_load fs text); reflexivity.
Qed.

Lemma readRouteYaml_eval (fs : NodeFs) (path : string) :
  ConfigDiscover.readRouteYaml fs path =
  (Normal (default [] (validRoutes fs path)), [ReadFile path]).
Proof.
  unfold ConfigDiscover.readRouteYaml, validRoutes.
  rewrite (bind_eval _ _ _ _ (read_yaml_eval fs path)).
  destruct (parseFile fs path) as [[|[] ? ?]|]; reflexivity.
Qed.

Lemma readClusterYaml_eval (fs : NodeFs) (path : string) :
  ConfigDiscover.readClusterYaml fs path =
  (Normal (default [] (validClusters fs path)), [ReadFile path]).
Proof.
  unfold ConfigDiscover.readClusterYaml, validClusters.
  rewrite (bind_eval _ _ _ _ (read_yaml_eval fs path)).
  destruct (parseFile fs path) as [[|? [] ?]|]; reflexivity.
Qed.

Lemma getRoutes_loop_eval (fs : NodeFs) (dir : string) (files : list string)
    (acc : RouteArray) :
  ConfigDiscover.getRoutes_loop fs dir files acc =
  (Normal (acc ++ flat_map (fun f => default [] (validRoutes fs (join fs dir f)))
                           (List.filter isYaml files)),
   (fun f => ReadFile (join fs dir f)) <$> List.filter isYaml files).
Proof.
  revert acc. induction files as [|f files IH]; intros acc; simpl.
  - rewrite app_nil_r. reflexivity.
  - change (includes f ".yaml") with (isYaml f).
    destruct (isYaml f); simpl; [|apply IH].
    rewrite (bind_eval _ _ _ _ (readRouteYaml_eval fs (join fs dir f))).
    rewrite IH. simpl. rewrite <- app_assoc. reflexivity.
Qed.

Lemma getClusters_loop_eval (fs : NodeFs) (dir : string) (files : list string)
    (acc : list Cluster) :
  ConfigDiscover.getClusters_loop fs dir files acc =
  (Normal (acc ++ flat_map (fun f => default [] (validClusters fs (join fs dir f)))
                           (List.filter isYaml files)),
   (fun f => ReadFile (join fs dir f)) <$> List.filter isYaml files).
Proof.
  revert acc. induction files as [|f files IH]; intros acc; simpl.
  - rewrite app_nil_r. reflexivity.
  - change (includes f ".yaml") with (isYaml f).
    destruct (isYaml f); simpl; [|apply IH].
    rewrite (bind_eval _ _ _ _ (readClusterYaml_eval fs (join fs dir f))).
    rewrite IH. simpl. rewrite <- app_assoc. reflexivity.
Qed.

(** The loop of [listDirContents] either throws or splits the entries, in
    their order, into folders and files; it reads no file. *)
Lemma sortContents_eval (fs : NodeFs) (dir : string) (entries : list string)
    (acc : FsTools.DirContents) :
  filesRead (trace (FsTools.sortContents fs dir entries acc)) = [] /\
  ((exists e, value (FsTools.sortContents fs dir entries acc) = Thrown e) \/
   value (FsTools.sortContents fs dir entries acc) =
     Normal {| FsTools.folders :=
                 FsTools.folders acc ++ List.filter (isDirectory fs dir) entries;
               FsTools.files :=
                 FsTools.files acc ++ List.filter (isFile fs dir) entries |}).
Proof.
  revert acc. induction entries as [|item entries IH]; intros acc; simpl.
  - split; [reflexivity|]. right. rewrite !app_nil_r. destruct acc; reflexivity.
  - unfold lstatSync, isDirectory, isFile.
    destruct (fs_lstat fs (join fs dir item)) as [st|] eqn:Hst.
    + match goal with |- context [FsTools.sortContents fs dir entries ?a] =>
        destruct (IH a) as [Htr Hval];
        destruct (FsTools.sortContents fs dir entries a) as [r t'] end.
      unfold value, trace in *. simpl in *. split; [exact Htr|].
      destruct Hval as [Hval | Hval]; [left; exact Hval | right].
      rewrite Hval. unfold push.
      destruct st; simpl; rewrite <- ?app_assoc; reflexivity.
    + io_unfold. simpl. split; [reflexivity|]. left. eauto.
Qed.

Lemma listDirContents_eval (fs : NodeFs) (dir : string) :
  filesRead (trace (FsTools.listDirContents fs dir)) = [] /\
  exists o, value (FsTools.listDirContents fs dir) = Normal o /\
    forall c, o = Some c ->
      exists entries, fs_readdir fs dir = Some entries /\
        FsTools.folders c = List.filter (isDirectory fs dir) entries /\
        FsTools.files c = List.filter (isFile fs dir) entries.
Proof.
  unfold FsTools.listDirContents, readdirSync.
  destruct (fs_readdir fs dir) as [entries|] eqn:Hdir.
  - erewrite bind_eval by reflexivity.
    destruct (sortContents_eval fs dir entries
                {| FsTools.folders := []; FsTools.files := [] |}) as [Htr Hval].
    destruct (FsTools.sortContents fs dir entries _) as [[c|e] t] eqn:Hsort;
      io_unfold; simpl in *; rewrite ?app_nil_r.
    + split; [exact Htr|]. eexists. split; [reflexivity|].
      intros c' [= <-]. exists entries. split; [reflexivity|].
      destruct Hval as [[e He] | [= ->]]; [discriminate He|]. split; reflexivity.
    + split; [exact Htr|]. eexists. split; [reflexivity|]. intros c' [=].
  - io_unfold. simpl. split; [reflexivity|]. eexists. split; [reflexivity|].
    intros c' [=].
Qed.

Lemma listDirContents_total (fs : NodeFs) (dir : string) :
  exists o t, FsTools.listDirContents fs dir = (Normal o, t) /\ filesRead t = [].
Proof.
  destruct (listDirContents_eval fs dir) as (Htr & o & Hval & _).
  destruct (FsTools.listDirContents fs dir) as [v t]. unfold value, trace in *.
  simpl in *. subst v. eauto.
Qed.

Lemma filesRead_app (t1 t2 : list FsEvent) :
  filesRead (t1 ++ t2) = filesRead t1 ++ filesRead t2.
Proof. apply omap_app. Qed.

Lemma filesRead_ReadFile (paths : list string) :
  filesRead (ReadFile <$> paths) = paths.
Proof. induction paths as [|p paths IH]; simpl; [reflexivity|]. f_equal. exact IH. Qed.

Lemma flat_map_default {A B} (g : A -> option (list B)) (l : list A) :
  flat_map (fun x => default [] (g x)) l = mjoin (omap g l).
Proof.
  induction l as [|x l IH]; simpl; [reflexivity|].
  rewrite IH. destruct (g x); reflexivity.
Qed.

Lemma getRoutes_eval (fs : NodeFs) (dir : string) (o : option FsTools.DirContents) :
  value (FsTools.listDirContents fs dir) = Normal o ->
  value (ConfigDiscover.getRoutes fs dir) =
    Normal (flat_map (fun f => default [] (validRoutes fs (join fs dir f)))
              (List.filter isYaml (default [] (FsTools.files <$> o)))) /\
  filesRead (trace (ConfigDiscover.getRoutes fs dir)) =
    join fs dir <$> List.filter isYaml (default [] (FsTools.files <$> o)).
Proof.
  intros Hval. destruct (listDirContents_total fs dir) as (o' & t & Hrun & Htr).
  rewrite Hrun in Hval. injection Hval as ->.
  unfold ConfigDiscover.getRoutes. rewrite (bind_eval _ _ _ _ Hrun).
  destruct o as [c|]; simpl.
  - rewrite getRoutes_loop_eval. unfold value, trace. simpl. split; [reflexivity|].
    rewrite filesRead_app, Htr. simpl.
    rewrite (list_fmap_compose (join fs dir) ReadFile). apply filesRead_ReadFile.
  - unfold value, trace. simpl. rewrite app_nil_r. split; [reflexivity | exact Htr].
Qed.

Lemma getClusters_eval (fs : NodeFs) (dir : string) (o : option FsTools.DirContents) :
  value (FsTools.listDirContents fs dir) = Normal o ->
  value (ConfigDiscover.getClusters fs dir) =
    Normal (flat_map (fun f => default [] (validClusters fs (join fs dir f)))
              (List.filter isYaml (default [] (FsTools.files <$> o)))) /\
  filesRead (trace (ConfigDiscover.getClusters fs dir)) =
    join fs dir <$> List.filter isYaml (default [] (FsTools.files <$> o)).
Proof.
  intros Hval. destruct (listDirContents_total fs dir) as (o' & t & Hrun & Htr).
  rewrite Hrun in Hval. injection Hval as ->.
  unfold ConfigDiscover.getClusters. rewrite (bind_eval _ _ _ _ Hrun).
  destruct o as [c|]; simpl.
  - rewrite getClusters_loop_eval. unfold value, trace. simpl. split; [reflexivity|].
    rewrite filesRead_app, Htr. simpl.
    rewrite (list_fmap_compose (join fs dir) ReadFile). apply filesRead_ReadFile.
  - unfold value, trace. simpl. rewrite app_nil_r. split; [reflexivity | exact Htr].
Qed.

Lemma getRoutes_total (fs : NodeFs) (dir : string) :
  exists rs t, ConfigDiscover.getRoutes fs dir = (Normal rs, t).
Proof.
  destruct (listDirContents_total fs dir) as (o & t & Hrun & _).
  destruct (getRoutes_eval fs dir o) as [Hval _]; [rewrite Hrun; reflexivity|].
  destruct (ConfigDiscover.getRoutes fs dir) as [v t']. simpl in Hval. subst v. eauto.
Qed.

Lemma getClusters_total (fs : NodeFs) (dir : string) :
  exists cs t, ConfigDiscover.getClusters fs dir = (Normal cs, t).
Proof.
  destruct (listDirContents_total fs dir) as (o & t & Hrun & _).
  destruct (getClusters_eval fs dir o) as [Hval _]; [rewrite Hrun; reflexivity|].
  destruct (ConfigDiscover.getClusters fs dir) as [v t']. simpl in Hval. subst v. eauto.
Qed.

Lemma find_name (n : string) (l : list string) :
  List.find (fun f => String.eqb f n) l = if decide (n ∈ l) then Some n else None.
Proof.
  induction l as [|f l IH]; simpl.
  - destruct (decide (n ∈ [])) as [H|]; [inversion H | reflexivity].
  - destruct (String.eqb_spec f n) as [-> | Hne].
    + destruct (decide (n ∈ n :: l)) as [|H]; [reflexivity|].
      exfalso. apply H. set_solver.
    + rewrite IH. destruct (decide (n ∈ l)), (decide (n ∈ f :: l)); try reflexivity.
      * exfalso. set_solver.
      * exfalso. apply elem_of_cons in e as [-> | ?]; [congruence | contradiction].
Qed.

(** The fragment of one service directory: none when the directory
    cannot be listed, has no folder of the configured name or holds no
    entry; otherwise the routes and clusters of its two folders. *)
Lemma findServiceConfigs_eval (fs : NodeFs) (this : ConfigDiscover.t) (p : string) :
  exists o, value (ConfigDiscover.findServiceConfigs fs this p) = Normal o /\
    ((value (FsTools.listDirContents fs p) = Normal None \/
      exists c, value (FsTools.listDirContents fs p) = Normal (Some c) /\
                ConfigDiscover.configFolderName this ∉ FsTools.folders c) ->
     o = None) /\
    (forall s, o = Some s ->
       let configPath := join fs p (ConfigDiscover.configFolderName this) in
       exists rs cs,
         s = {| sc_clusters := Some cs; sc_routes := Some rs |} /\
         value (ConfigDiscover.getRoutes fs (join fs configPath "routes")) = Normal rs /\
         value (ConfigDiscover.getClusters fs (join fs configPath "clusters")) = Normal cs).
Proof.
  destruct (listDirContents_total fs p) as (o & t & Hrun & _).
  unfold ConfigDiscover.findServiceConfigs. rewrite (bind_eval _ _ _ _ Hrun), Hrun.
  unfold value at 2 3. simpl.
  destruct o as [c|]; simpl.
  - rewrite find_name.
    destruct (decide (ConfigDiscover.configFolderName this ∈ FsTools.folders c)) as [Hin|Hout].
    + destruct (ConfigDiscover.truthy (ConfigDiscover.configFolderName this)).
      * destruct (getRoutes_total fs
          (join fs (join fs p (ConfigDiscover.configFolderName this)) "routes"))
          as (rs & t1 & Hr).
        destruct (getClusters_total fs
          (join fs (join fs p (ConfigDiscover.configFolderName this)) "clusters"))
          as (cs & t2 & Hc).
        rewrite (bind_eval _ _ _ _ Hr), (bind_eval _ _ _ _ Hc), Hr, Hc.
        destruct ((0 <? length rs) || (0 <? length cs)); simpl.
        -- eexists. split; [reflexivity|]. split.
           ++ intros [[=] | (c' & [= <-] & Hc')]. contradiction.
           ++ intros s [= <-]. exists rs, cs. repeat split.
        -- eexists. split; [reflexivity|]. split; [reflexivity | intros s [=]].
      * eexists. split; [reflexivity|]. split; [reflexivity | intros s [=]].
    + eexists. split; [reflexivity|]. split; [reflexivity | intros s [=]].
  - eexists. split; [reflexivity|]. split; [reflexivity | intros s [=]].
Qed.

Lemma findServiceConfigs_total (fs : NodeFs) (this : ConfigDiscover.t) (p : string) :
  exists t, ConfigDiscover.findServiceConfigs fs this p = (Normal (discovered fs this p), t).
Proof.
  destruct (findServiceConfigs_eval fs this p) as (o & Hval & _).
  unfold discovered. rewrite Hval.
  destruct (ConfigDiscover.findServiceConfigs fs this p) as [v t].
  simpl in Hval. subst v. eauto.
Qed.

Lemma collect_loop_value (fs : NodeFs) (this : ConfigDiscover.t) (paths : list string)
    (acc : list ServiceConfg) :
  value (ConfigDiscover.collect_loop fs this paths acc) =
  Normal (acc ++ omap (discovered fs this) paths).
Proof.
  revert acc. induction paths as [|p paths IH]; intros acc; simpl.
  - rewrite app_nil_r. reflexivity.
  - destruct (findServiceConfigs_total fs this p) as [t Hrun].
    rewrite (bind_eval _ _ _ _ Hrun). unfold value at 1. simpl. rewrite IH.
    destruct (discovered fs this p); simpl; [|reflexivity].
    unfold push. rewrite <- app_assoc. reflexivity.
Qed.

Lemma collect_total (fs : NodeFs) (this : ConfigDiscover.t) :
  exists t, ConfigDiscover.collect fs this =
            (Normal (omap (discovered fs this) (ConfigDiscover.folderPaths this)), t).
Proof.
  pose proof (collect_loop_value fs this (ConfigDiscover.folderPaths this) []) as H.
  unfold ConfigDiscover.collect.
  destruct (ConfigDiscover.collect_loop fs this _ []) as [v t]. simpl in H. subst v. eauto.
Qed.

Lemma bind_thrown {A B} (m : Io A) (k : A -> Io B) (e : JsError) (t : list FsEvent) :
  m = (Thrown e, t) -> (m ≫= k) = (Thrown e, t).
Proof. intros ->. reflexivity. Qed.

Lemma collectBase_missing (fs : NodeFs) (this : ConfigDiscover.t) :
  parseFile fs (ConfigDiscover.baseConfigPath this) = None \/
  parseFile fs (ConfigDiscover.baseConfigPath this) = Some DocFalsy ->
  ConfigDiscover.collectBase fs this =
  (Thrown (Error ("base envoy config not found at " +:+ ConfigDiscover.baseConfigPath this)),
   [ReadFile (ConfigDiscover.baseConfigPath this)]).
Proof.
  intros H. unfold ConfigDiscover.collectBase.
  rewrite (bind_eval _ _ _ _ (read_yaml_eval fs _)).
  destruct H as [-> | ->]; reflexivity.
Qed.

(** ** The base document *)

(** C5, as stated, fails: [execute] collects the fragments before it loads
    the base document, so with a missing base document the service
    directories have been listed and their files read by the time the
    load fails. *)
Lemma C5_counterexample :
  fs_readFile Examples.fs "nobase.yaml" = None /\
  value (EnvoyProxyPlugin.execute Examples.fs (Examples.request "nobase.yaml" ["svc3"])) =
    Normal (EnvoyProxyPlugin.Text "Error: base envoy config not found at nobase.yaml") /\
  trace (EnvoyProxyPlugin.execute Examples.fs (Examples.request "nobase.yaml" ["svc3"])) =
    [ Readdir "svc3"; Lstat "svc3/envoy";
      Readdir "svc3/envoy/routes"; Lstat "svc3/envoy/routes/r.yaml";
      ReadFile "svc3/envoy/routes/r.yaml";
      Readdir "svc3/envoy/clusters";
      ReadFile "nobase.yaml" ].
Proof. repeat split. Qed.

(** C5 (amended): when the base document cannot be read, does not parse or
    parses to nothing, [collectBase] throws the error "base envoy config
    not found at <path>" and the run is aborted: [execute] answers with
    that error and does nothing after the failed load (no merge, nothing
    written).  The fragments have been collected before the load. *)
Theorem C5_missing_base_aborts_the_run
    (fs : NodeFs) (request_options : option (list (string * EnvoyProxyPlugin.OptionValue)))
    (options : EnvoyProxyPlugin.Options) :
  options = EnvoyProxyPlugin.parse_options request_options ->
  parseFile fs (EnvoyProxyPlugin.base options) = None \/
  parseFile fs (EnvoyProxyPlugin.base options) = Some DocFalsy ->
  value (ConfigDiscover.collectBase fs (EnvoyProxyPlugin.discovery_of options)) =
    Thrown (Error ("base envoy config not found at " +:+ EnvoyProxyPlugin.base options)) /\
  value (EnvoyProxyPlugin.execute fs request_options) =
    Normal (EnvoyProxyPlugin.Text
              ("Error: base envoy config not found at " +:+ EnvoyProxyPlugin.base options)) /\
  trace (EnvoyProxyPlugin.execute fs request_options) =
    trace (ConfigDiscover.collect fs (EnvoyProxyPlugin.discovery_of options)) ++
    [ReadFile (EnvoyProxyPlugin.base options)].
Proof.
  intros -> Hbase.
  set (options := EnvoyProxyPlugin.parse_options request_options) in *.
  pose proof (collectBase_missing fs (EnvoyProxyPlugin.discovery_of options) Hbase) as Hcb.
  simpl in Hcb. split; [rewrite Hcb; reflexivity|].
  destruct (collect_total fs (EnvoyProxyPlugin.discovery_of options)) as [t Hcol].
  unfold EnvoyProxyPlugin.execute. fold options. cbv zeta.
  rewrite (bind_eval _ _ _ _ Hcol), (bind_thrown _ _ _ _ Hcb), Hcol.
  unfold value, trace, try_catch. simpl. rewrite app_nil_r. split; reflexivity.
Qed.

Lemma C5_witness :
  value (EnvoyProxyPlugin.execute Examples.fs (Examples.request "nobase.yaml" ["svc1"; "svc3"])) =
    Normal (EnvoyProxyPlugin.Text "Error: base envoy config not found at nobase.yaml").
Proof.
  apply (C5_missing_base_aborts_the_run Examples.fs
           (Examples.request "nobase.yaml" ["svc1"; "svc3"])
           (EnvoyProxyPlugin.parse_options (Examples.request "nobase.yaml" ["svc1"; "svc3"]))).
  - reflexivity.
  - left. reflexivity.
Defined.

(** ** Service directories *)

(** C6: a service directory that cannot be listed, or that has no folder of
    the configured name, yields no fragment and no exception; the
    fragments that [collect] returns are those of the directories before
    it followed by those of the directories after it, each sequence being
    what discovery finds for these directories in their input order. *)
Theorem C6_skipped_directory_leaves_no_gap
    (fs : NodeFs) (this : ConfigDiscover.t) (l1 : list string) (p : string)
    (l2 : list string) :
  ConfigDiscover.folderPaths this = l1 ++ p :: l2 ->
  (value (FsTools.listDirContents fs p) = Normal None \/
   exists c, value (FsTools.listDirContents fs p) = Normal (Some c) /\
             ConfigDiscover.configFolderName this ∉ FsTools.folders c) ->
  value (ConfigDiscover.findServiceConfigs fs this p) = Normal None /\
  value (ConfigDiscover.collect_loop fs this l1 []) = Normal (omap (discovered fs this) l1) /\
  value (ConfigDiscover.collect_loop fs this l2 []) = Normal (omap (discovered fs this) l2) /\
  value (ConfigDiscover.collect fs this) =
    Normal (omap (discovered fs this) l1 ++ omap (discovered fs this) l2).
Proof.
  intros Hpaths Hskip.
  destruct (findServiceConfigs_eval fs this p) as (o & Hval & Hnone & _).
  specialize (Hnone Hskip). subst o.
  split; [exact Hval|]. split; [apply collect_loop_value|].
  split; [apply collect_loop_value|].
  unfold ConfigDiscover.collect. rewrite collect_loop_value, Hpaths. simpl.
  rewrite omap_app. simpl. unfold discovered at 2. rewrite Hval. reflexivity.
Qed.

Lemma C6_witness :
  value (ConfigDiscover.collect Examples.fs
           (ConfigDiscover.constructor ["svc1"; "svc2"; "svc3"] "base.yaml" None)) =
  Normal (omap (discovered Examples.fs
                  (ConfigDiscover.constructor ["svc1"; "svc2"; "svc3"] "base.yaml" None))
               ["svc1"] ++
          omap (discovered Examples.fs
                  (ConfigDiscover.constructor ["svc1"; "svc2"; "svc3"] "base.yaml" None))
               ["svc3"]).
Proof.
  apply (C6_skipped_directory_leaves_no_gap Examples.fs
           (ConfigDiscover.constructor ["svc1"; "svc2"; "svc3"] "base.yaml" None)
           ["svc1"] "svc2" ["svc3"]).
  - reflexivity.
  - right. eexists. split; [reflexivity|]. simpl.
    intros Hin. apply list_elem_of_singleton in Hin. discriminate Hin.
Defined.

(** ** Fragment files *)

(** C7: in a folder that can be listed, every file that cannot be read,
    does not parse or lacks the expected array adds nothing, and the
    other files are still read: the routes (the clusters) found are those
    of the valid files, in order, and removing a malformed file from the
    folder leaves them the same.  The fragment of a service holds these
    entries, and no step of discovery throws. *)
Theorem C7_malformed_files_add_nothing
    (fs : NodeFs) (dir : string) (c : FsTools.DirContents) :
  value (FsTools.listDirContents fs dir) = Normal (Some c) ->
  value (ConfigDiscover.getRoutes fs dir) =
    Normal (mjoin (omap (fun f => validRoutes fs (join fs dir f))
                        (List.filter isYaml (FsTools.files c)))) /\
  value (ConfigDiscover.getClusters fs dir) =
    Normal (mjoin (omap (fun f => validClusters fs (join fs dir f))
                        (List.filter isYaml (FsTools.files c)))) /\
  (forall files1 f files2,
     List.filter isYaml (FsTools.files c) = files1 ++ f :: files2 ->
     validRoutes fs (join fs dir f) = None ->
     value (ConfigDiscover.getRoutes fs dir) =
       Normal (mjoin (omap (fun f => validRoutes fs (join fs dir f)) (files1 ++ files2)))) /\
  (forall this p s,
     value (ConfigDiscover.findServiceConfigs fs this p) = Normal (Some s) ->
     let configPath := join fs p (ConfigDiscover.configFolderName this) in
     exists rs cs,
       s = {| sc_clusters := Some cs; sc_routes := Some rs |} /\
       value (ConfigDiscover.getRoutes fs (join fs configPath "routes")) = Normal rs /\
       value (ConfigDiscover.getClusters fs (join fs configPath "clusters")) = Normal cs) /\
  (forall this, exists services, value (ConfigDiscover.collect fs this) = Normal services).
Proof.
  intros Hls.
  destruct (getRoutes_eval fs dir (Some c) Hls) as [Hr _].
  destruct (getClusters_eval fs dir (Some c) Hls) as [Hc _].
  simpl in Hr, Hc. rewrite flat_map_default in Hr. rewrite flat_map_default in Hc.
  split; [exact Hr|]. split; [exact Hc|]. split; [|split].
  - intros files1 f files2 Hfiles Hf. rewrite Hr, Hfiles.
    rewrite !omap_app. simpl. rewrite Hf. reflexivity.
  - intros this p s Hs.
    destruct (findServiceConfigs_eval fs this p) as (o & Hval & _ & Hsome).
    rewrite Hval in Hs. injection Hs as ->. apply Hsome. reflexivity.
  - intros this. destruct (collect_total fs this) as [t Hcol].
    eexists. rewrite Hcol. reflexivity.
Qed.

Lemma C7_witness :
  validRoutes Examples.fs "svc1/envoy/routes/broken.yaml" = None /\
  value (ConfigDiscover.getRoutes Examples.fs "svc1/envoy/routes") =
    Normal (mjoin (omap (fun f => validRoutes Examples.fs (join Examples.fs "svc1/envoy/routes" f))
                        (List.filter isYaml
                           ["a.yaml"; "broken.yaml"; "b.yaml.bak"; "notes.txt"; "z.yaml"]))).
Proof.
  split; [reflexivity|].
  apply (C7_malformed_files_add_nothing Examples.fs "svc1/envoy/routes"
           {| FsTools.folders := [];
              FsTools.files := ["a.yaml"; "broken.yaml"; "b.yaml.bak"; "notes.txt"; "z.yaml"] |}).
  reflexivity.
Defined.

(** What the folder scan does: in a folder that can be listed, the files
    are the entries of the directory listing that are regular files, in
    the order of the listing; discovery reads exactly those whose name
    contains ".yaml", in that order, and concatenates their lists in that
    order. *)
Lemma folder_scan_in_listing_order
    (fs : NodeFs) (dir : string) (c : FsTools.DirContents) :
  value (FsTools.listDirContents fs dir) = Normal (Some c) ->
  (exists entries,
     fs_readdir fs dir = Some entries /\
     FsTools.files c = List.filter (isFile fs dir) entries) /\
  filesRead (trace (ConfigDiscover.getRoutes fs dir)) =
    join fs dir <$> List.filter (fun f => includes f ".yaml") (FsTools.files c) /\
  value (ConfigDiscover.getRoutes fs dir) =
    Normal (flat_map (fun f => default [] (validRoutes fs (join fs dir f)))
              (List.filter (fun f => includes f ".yaml") (FsTools.files c))) /\
  filesRead (trace (ConfigDiscover.getClusters fs dir)) =
    join fs dir <$> List.filter (fun f => includes f ".yaml") (FsTools.files c) /\
  value (ConfigDiscover.getClusters fs dir) =
    Normal (flat_map (fun f => default [] (validClusters fs (join fs dir f)))
              (List.filter (fun f => includes f ".yaml") (FsTools.files c))).
Proof.
  intros Hls.
  destruct (getRoutes_eval fs dir (Some c) Hls) as [Hr Hrt].
  destruct (getClusters_eval fs dir (Some c) Hls) as [Hc Hct].
  destruct (listDirContents_eval fs dir) as (_ & o & Hval & Hsome).
  rewrite Hls in Hval. injection Hval as <-.
  destruct (Hsome c eq_refl) as (entries & Hdir & _ & Hfiles).
  split; [exists entries; split; assumption|].
  repeat split; assumption.
Qed.

Example folder_scan_example :
  filesRead (trace (ConfigDiscover.getRoutes Examples.fs "svc1/envoy/routes")) =
    join Examples.fs "svc1/envoy/routes" <$>
      List.filter (fun f => includes f ".yaml")
        ["a.yaml"; "broken.yaml"; "b.yaml.bak"; "notes.txt"; "z.yaml"].
Proof.
  apply (folder_scan_in_listing_order Examples.fs "svc1/envoy/routes"
           {| FsTools.folders := [];
              FsTools.files := ["a.yaml"; "broken.yaml"; "b.yaml.bak"; "notes.txt"; "z.yaml"] |}).
  reflexivity.
Qed.

(** C8: the test on a file name is [f.includes(".yaml")], not a test of
    its end: the file [b.yaml.bak] of the example folder, whose name does
    not end in ".yaml", is read and its route becomes part of the routes
    of the service, between those of [a.yaml] and [z.yaml]. *)
Theorem C8_backup_file_is_read :
  endsWith "b.yaml.bak" ".yaml" = false /\
  "svc1/envoy/routes/b.yaml.bak" ∈
    filesRead (trace (ConfigDiscover.getRoutes Examples.fs "svc1/envoy/routes")) /\
  validRoutes Examples.fs "svc1/envoy/routes/b.yaml.bak" = Some [Examples.route "/old"] /\
  value (ConfigDiscover.getRoutes Examples.fs "svc1/envoy/routes") =
    Normal [ Examples.route "/a1"; Examples.route "/a2"; Examples.route "/old";
             Examples.route "/z" ].
Proof.
  split; [reflexivity|]. split; [|split; reflexivity].
  vm_compute. set_solver.
Qed.


(** * Further properties of [Compiler] *)

Lemma findIndex_lower {A} (p : A -> bool) (l : list A) : (-1 <= findIndex p l)%Z.
Proof.
  induction l as [|x l IH]; simpl; [lia|].
  destruct (p x); [lia|].
  destruct (Z.eqb_spec (findIndex p l) (-1)); lia.
Qed.

Lemma mergeCluster_nil (c : Cluster) : Compiler.mergeCluster c [] = [c].
Proof. reflexivity. Qed.

Lemma mergeCluster_cons_same (c x : Cluster) (l : list Cluster) :
  name x = name c -> Compiler.mergeCluster c (x :: l) = c :: l.
Proof.
  intros Hx. apply (mergeCluster_replace c [] x l); [constructor | exact Hx].
Qed.

Lemma findIndex_cons_false {A} (p : A -> bool) (x : A) (l : list A) :
  p x = false ->
  findIndex p (x :: l) =
  if (findIndex p l =? -1)%Z then (-1)%Z else (findIndex p l + 1)%Z.
Proof. intros Hx. simpl. rewrite Hx. reflexivity. Qed.

Lemma mergeCluster_cons_other (c x : Cluster) (l : list Cluster) :
  name x <> name c -> Compiler.mergeCluster c (x :: l) = x :: Compiler.mergeCluster c l.
Proof.
  intros Hx. unfold Compiler.mergeCluster. fold (sameName c).
  rewrite (findIndex_cons_false (sameName c) x l (proj2 (sameName_false c x) Hx)).
  pose proof (findIndex_lower (sameName c) l) as Hlow.
  destruct (Z.eqb_spec (findIndex (sameName c) l) (-1)) as [Heq | Hne].
  - reflexivity.
  - destruct (Z.eqb_spec (findIndex (sameName c) l + 1) (-1)); [lia|].
    unfold array_set. rewrite Z2Nat.inj_add by lia.
    rewrite Nat.add_comm. reflexivity.
Qed.

Lemma mergeCluster_absorb (c d : Cluster) (l : list Cluster) :
  name c = name d ->
  Compiler.mergeCluster d (Compiler.mergeCluster c l) = Compiler.mergeCluster d l.
Proof.
  intros Hcd. induction l as [|x l IH].
  - rewrite mergeCluster_nil, mergeCluster_cons_same by exact Hcd. reflexivity.
  - destruct (decide (name x = name c)) as [Hx | Hx].
    + rewrite (mergeCluster_cons_same c x l Hx).
      rewrite (mergeCluster_cons_same d c l) by congruence.
      rewrite (mergeCluster_cons_same d x l) by congruence. reflexivity.
    + rewrite (mergeCluster_cons_other c x l Hx).
      rewrite (mergeCluster_cons_other d x _) by congruence.
      rewrite (mergeCluster_cons_other d x l) by congruence.
      rewrite IH. reflexivity.
Qed.

Lemma mergeCluster_commute (c d : Cluster) (l : list Cluster) :
  name c <> name d -> name d ∈ (name <$> l) ->
  Compiler.mergeCluster d (Compiler.mergeCluster c l) =
  Compiler.mergeCluster c (Compiler.mergeCluster d l).
Proof.
  intros Hcd. induction l as [|x l IH]; intros Hin; [inversion Hin|].
  destruct (decide (name x = name d)) as [Hxd | Hxd].
  - rewrite (mergeCluster_cons_other c x l) by congruence.
    rewrite (mergeCluster_cons_same d x _ Hxd).
    rewrite (mergeCluster_cons_same d x l Hxd).
    rewrite mergeCluster_cons_other by congruence. reflexivity.
  - rewrite (mergeCluster_cons_other d x l Hxd).
    rewrite fmap_cons in Hin. apply elem_of_cons in Hin as [Hin | Hin]; [congruence|].
    destruct (decide (name x = name c)) as [Hxc | Hxc].
    + rewrite (mergeCluster_cons_same c x l Hxc).
      rewrite (mergeCluster_cons_same c x _ Hxc).
      rewrite mergeCluster_cons_other by congruence. reflexivity.
    + rewrite (mergeCluster_cons_other c x l Hxc).
      rewrite (mergeCluster_cons_other d x _ Hxd).
      rewrite (mergeCluster_cons_other c x _ Hxc).
      rewrite IH by exact Hin. reflexivity.
Qed.

Lemma mergeCluster_names_incl (c : Cluster) (l : list Cluster) (n : string) :
  n ∈ (name <$> l) -> n ∈ (name <$> Compiler.mergeCluster c l).
Proof.
  intros Hn. destruct (mergeCluster_names c l) as [-> | [_ ->]]; set_solver.
Qed.

Lemma mergeCluster_name_written (c : Cluster) (l : list Cluster) :
  name c ∈ (name <$> Compiler.mergeCluster c l).
Proof. apply list_elem_of_fmap. exists c. split; [reflexivity | apply mergeCluster_written]. Qed.

Lemma mergeClusters_names_incl (cs l : list Cluster) (n : string) :
  n ∈ (name <$> l) -> n ∈ (name <$> mergeClusters cs l).
Proof.
  revert l. induction cs as [|c cs IH]; intros l Hn; [exact Hn|].
  apply (IH (Compiler.mergeCluster c l)), mergeCluster_names_incl, Hn.
Qed.

Lemma mergeClusters_names_written (cs l : list Cluster) (n : string) :
  n ∈ (name <$> cs) -> n ∈ (name <$> mergeClusters cs l).
Proof.
  revert l. induction cs as [|c cs IH]; intros l Hn; [inversion Hn|].
  rewrite fmap_cons in Hn. apply elem_of_cons in Hn as [-> | Hn].
  - apply (mergeClusters_names_incl cs), mergeCluster_name_written.
  - apply (IH (Compiler.mergeCluster c l)), Hn.
Qed.

Lemma mergeClusters_absorb (cs : list Cluster) (c : Cluster) (l : list Cluster) :
  name c ∈ (name <$> cs) ->
  (forall n, n ∈ (name <$> cs) -> n ∈ (name <$> l)) ->
  mergeClusters cs (Compiler.mergeCluster c l) = mergeClusters cs l.
Proof.
  revert l. induction cs as [|d cs IH]; intros l Hc Hall; [inversion Hc|].
  change (mergeClusters cs (Compiler.mergeCluster d (Compiler.mergeCluster c l)) =
          mergeClusters cs (Compiler.mergeCluster d l)).
  destruct (decide (name c = name d)) as [Hcd | Hcd].
  - rewrite mergeCluster_absorb by exact Hcd. reflexivity.
  - rewrite mergeCluster_commute; [| exact Hcd | apply Hall; set_solver].
    apply IH.
    + rewrite fmap_cons in Hc. apply elem_of_cons in Hc as [Hc | Hc]; [congruence | exact Hc].
    + intros n Hn. apply mergeCluster_names_incl, Hall. set_solver.
Qed.

Lemma mergeClusters_commute (cs : list Cluster) (c : Cluster) (l : list Cluster) :
  name c ∉ (name <$> cs) ->
  (forall n, n ∈ (name <$> cs) -> n ∈ (name <$> l)) ->
  mergeClusters cs (Compiler.mergeCluster c l) =
  Compiler.mergeCluster c (mergeClusters cs l).
Proof.
  revert l. induction cs as [|d cs IH]; intros l Hc Hall; [reflexivity|].
  change (mergeClusters cs (Compiler.mergeCluster d (Compiler.mergeCluster c l)) =
          Compiler.mergeCluster c (mergeClusters cs (Compiler.mergeCluster d l))).
  rewrite fmap_cons in Hc. apply not_elem_of_cons in Hc as [Hcd Hc].
  rewrite mergeCluster_commute; [| exact Hcd | apply Hall; set_solver].
  apply IH; [exact Hc|].
  intros n Hn. apply mergeCluster_names_incl, Hall. set_solver.
Qed.

Lemma mergeClusters_idempotent (cs l : list Cluster) :
  mergeClusters cs (mergeClusters cs l) = mergeClusters cs l.
Proof.
  induction cs as [|c cs IH] using rev_ind; [reflexivity|].
  rewrite !mergeClusters_snoc.
  set (m := mergeClusters cs l) in *.
  assert (Hall : forall n, n ∈ (name <$> cs) -> n ∈ (name <$> m)).
  { intros n Hn. apply mergeClusters_names_written, Hn. }
  destruct (decide (name c ∈ (name <$> cs))) as [Hin | Hout].
  - rewrite mergeClusters_absorb by assumption. rewrite IH. reflexivity.
  - rewrite mergeClusters_commute by assumption. rewrite IH.
    apply mergeCluster_absorb. reflexivity.
Qed.

Lemma mergeClusters_fresh_names (cs l : list Cluster) :
  exists fresh,
    (name <$> mergeClusters cs l) = (name <$> l) ++ fresh /\
    NoDup fresh /\
    forall n, n ∈ fresh <-> n ∈ (name <$> cs) /\ n ∉ (name <$> l).
Proof.
  revert l. induction cs as [|c cs IH]; intros l.
  - exists []. split; [rewrite app_nil_r; reflexivity|]. split; [constructor|].
    intros n. split; [intros H; inversion H | intros [H _]; inversion H].
  - destruct (IH (Compiler.mergeCluster c l)) as (fresh & Hnames & Hnd & Hfresh).
    change (mergeClusters (c :: cs) l) with (mergeClusters cs (Compiler.mergeCluster c l)).
    pose proof (mergeCluster_name_written c l) as Hc.
    destruct (mergeCluster_names c l) as [Hsame | [Hnew Happ]].
    + rewrite Hsame in Hnames, Hfresh, Hc. exists fresh.
      split; [exact Hnames|]. split; [exact Hnd|].
      intros n. rewrite Hfresh, fmap_cons, elem_of_cons. split.
      * intros [H1 H2]. split; [right; exact H1 | exact H2].
      * intros [[-> | H1] H2]; [contradiction | split; assumption].
    + rewrite Happ in Hnames, Hfresh. exists (name c :: fresh).
      split; [rewrite Hnames, <- app_assoc; reflexivity|]. split.
      * apply NoDup_cons. split; [|exact Hnd].
        intros Hin. apply Hfresh in Hin as [_ Hin]. apply Hin.
        apply elem_of_app. right. apply list_elem_of_singleton. reflexivity.
      * intros n. rewrite elem_of_cons, Hfresh, fmap_cons, elem_of_cons, elem_of_app,
          list_elem_of_singleton.
        split.
        -- intros [-> | [H1 H2]]; [split; [left; reflexivity | exact Hnew]|].
           split; [right; exact H1|]. intros H. apply H2. left. exact H.
        -- intros [[-> | H1] H2]; [left; reflexivity|].
           destruct (decide (n = name c)) as [-> | Hne]; [left; reflexivity|].
           right. split; [exact H1|]. intros [H | H]; [contradiction | congruence].
Qed.

Lemma mergeCluster_lookup_other (c x : Cluster) (l : list Cluster) (i : nat) :
  l !! i = Some x -> name x <> name c -> Compiler.mergeCluster c l !! i = Some x.
Proof.
  revert i. induction l as [|y l IH]; intros i Hi Hx; [discriminate Hi|].
  destruct (decide (name y = name c)) as [Hy | Hy].
  - rewrite (mergeCluster_cons_same c y l Hy).
    destruct i as [|i]; simpl in *; [congruence | exact Hi].
  - rewrite (mergeCluster_cons_other c y l Hy).
    destruct i as [|i]; simpl in *; [exact Hi | apply IH; assumption].
Qed.

Lemma mergeClusters_lookup_other (cs l : list Cluster) (x : Cluster) (i : nat) :
  l !! i = Some x -> name x ∉ (name <$> cs) -> mergeClusters cs l !! i = Some x.
Proof.
  revert l. induction cs as [|c cs IH]; intros l Hi Hx; [exact Hi|].
  rewrite fmap_cons in Hx. apply not_elem_of_cons in Hx as [Hc Hx].
  apply (IH (Compiler.mergeCluster c l)); [|exact Hx].
  apply mergeCluster_lookup_other; assumption.
Qed.

Lemma build_loop_null (ss : list ServiceConfg) (ss0 : list ServiceConfg) :
  Compiler.build_loop ss (Compiler.mk ss0 None) = (Normal tt, Compiler.mk ss0 None).
Proof. destruct ss; reflexivity. Qed.

Lemma build_loop_keeps_store (ss : list ServiceConfg) (this : Compiler.t) :
  is_Some (Compiler.store this) ->
  is_Some (Compiler.store (snd (Compiler.build_loop ss this))).
Proof.
  revert this. induction ss as [|s ss IH]; intros this Hst; [exact Hst|].
  pose proof Hst as [cfg Hcfg]. simpl. st_unfold. simpl. rewrite Hcfg.
  pose proof (mergeConfig_keeps_store s this Hst) as H1.
  destruct (Compiler.mergeConfig s this) as [[[]|e] this1]; simpl in *.
  - apply IH, H1.
  - exact H1.
Qed.

Lemma run_build_loop (base : option EnvoyConfig) (ss : list ServiceConfg) :
  Compiler.run base ss =
  (fst (Compiler.build_loop ss (Compiler.mk ss base)),
   Compiler.store (snd (Compiler.build_loop ss (Compiler.mk ss base)))).
Proof.
  unfold Compiler.run, Compiler.build, Compiler.constructor, Compiler.getStore.
  st_unfold. simpl. destruct (Compiler.build_loop ss _). reflexivity.
Qed.

(** The private field [serviceConfigs] is never written. *)
Lemma mergeConfig_serviceConfigs (s : ServiceConfg) (this : Compiler.t) :
  Compiler.serviceConfigs (snd (Compiler.mergeConfig s this)) = Compiler.serviceConfigs this.
Proof.
  destruct this as [ss0 [cfg|]]; [|reflexivity].
  unfold Compiler.mergeConfig. st_unfold. simpl.
  assert (Hloop : forall cs this1,
    Compiler.serviceConfigs (snd (for_of cs Compiler.mergeClusterStmt this1)) =
    Compiler.serviceConfigs this1).
  { induction cs as [|c cs IH]; intros this1; [reflexivity|]. simpl.
    unfold mbind, St_bind.
    assert (H1 : Compiler.serviceConfigs (snd (Compiler.mergeClusterStmt c this1)) =
                 Compiler.serviceConfigs this1).
    { unfold Compiler.mergeClusterStmt. st_unfold. simpl.
      destruct (Compiler.store this1) as [[[sr|]]|]; reflexivity. }
    destruct (Compiler.mergeClusterStmt c this1) as [[[]|e] this2]; simpl in *.
    - rewrite IH. exact H1.
    - exact H1. }
  assert (Hadd : forall arg this1,
    Compiler.serviceConfigs (snd (Compiler.addRoute arg this1)) =
    Compiler.serviceConfigs this1).
  { intros arg [ss1 [[[[[ls|] cs]|]]|]]; unfold Compiler.addRoute; st_unfold; simpl;
      try reflexivity.
    destruct ls as [|[ln [[|[[[|[fname [[sp [[rcn [[|vh0 vhs]|]]|]]|]] fs]|]] fcs]|]] ls];
      reflexivity. }
  destruct (sc_clusters s) as [cs|]; simpl; [|reflexivity].
  specialize (Hloop cs (Compiler.mk ss0 (Some cfg))).
  destruct (for_of cs Compiler.mergeClusterStmt _) as [[[]|e] this1]; simpl in *.
  - rewrite Hadd. exact Hloop.
  - exact Hloop.
Qed.

(** [build] over a concatenation is [build] over its two parts in turn. *)
Lemma build_loop_app (ss1 ss2 : list ServiceConfg) (this : Compiler.t) :
  Compiler.build_loop (ss1 ++ ss2) this =
  (Compiler.build_loop ss1;; Compiler.build_loop ss2) this.
Proof.
  revert this. induction ss1 as [|s ss1 IH]; intros this; [reflexivity|].
  simpl. st_unfold. simpl.
  destruct (Compiler.store this) as [cfg|] eqn:Hst.
  - destruct (Compiler.mergeConfig s this) as [[[]|e] this1]; [|reflexivity].
    rewrite IH. reflexivity.
  - destruct this as [ss0 st]. simpl in Hst. subst st.
    rewrite build_loop_null. reflexivity.
Qed.

Lemma addRoute_frame (ss : list ServiceConfg) (cfg cfg' : EnvoyConfig)
    (arg : option RouteArray) :
  listenersPresent cfg ->
  Compiler.addRoute arg (Compiler.mk ss (Some cfg)) = (Normal tt, Compiler.mk ss (Some cfg')) ->
  frame cfg' = frame cfg.
Proof.
  intros (sr & ls & Hsr & Hls).
  destruct cfg as [osr]. simpl in Hsr. subst osr.
  destruct sr as [ols cs]. simpl in Hls. subst ols.
  unfold Compiler.addRoute. st_unfold. simpl.
  destruct ls as [|[ln [[|[[[|[fname [[sp [[rcn [[|[vhn vhd vhr] vhs]|]]|]]|]] fs]|]] fcs]|]] ls];
    simpl; intros [= <-]; reflexivity.
Qed.

Lemma mergeConfig_frame (ss : list ServiceConfg) (cfg cfg' : EnvoyConfig)
    (s : ServiceConfg) :
  listenersPresent cfg -> iterable s ->
  Compiler.mergeConfig s (Compiler.mk ss (Some cfg)) = (Normal tt, Compiler.mk ss (Some cfg')) ->
  frame cfg' = frame cfg.
Proof.
  intros Hp [cs Hcs] Hrun.
  pose proof Hp as (sr & ls & Hsr & Hls).
  destruct cfg as [osr]. simpl in Hsr. subst osr.
  unfold Compiler.mergeConfig in Hrun. st_unfold. simpl in Hrun. rewrite Hcs in Hrun.
  rewrite clusterLoop_store in Hrun.
  apply addRoute_frame in Hrun.
  - rewrite Hrun. unfold frame. simpl. reflexivity.
  - eexists _, ls. split; [reflexivity | exact Hls].
Qed.

Lemma build_loop_frame (ss0 ss : list ServiceConfg) (cfg cfg' : EnvoyConfig) :
  listenersPresent cfg -> Forall iterable ss ->
  Compiler.build_loop ss (Compiler.mk ss0 (Some cfg)) = (Normal tt, Compiler.mk ss0 (Some cfg')) ->
  frame cfg' = frame cfg.
Proof.
  intros Hp Hss. revert cfg Hp.
  induction Hss as [|s ss Hs _ IH]; intros cfg Hp Hrun.
  - injection Hrun as <-. reflexivity.
  - pose proof Hs as [cs Hcs].
    destruct (mergeConfig_store ss0 cfg s cs Hp Hcs) as (cfg1 & Hrun1 & Hp1 & _).
    simpl in Hrun. st_unfold. simpl in Hrun. rewrite Hrun1 in Hrun.
    rewrite (IH cfg1 Hp1 Hrun).
    apply (mergeConfig_frame ss0 cfg cfg1 s Hp Hs Hrun1).
Qed.

(** X1: [build] never turns a document into [null] nor [null] into a
    document, whatever the fragments are and whether it throws or not. *)
Theorem build_keeps_null_and_non_null (base : option EnvoyConfig) (ss : list ServiceConfg) :
  (base = None /\ Compiler.run base ss = (Normal tt, None)) \/
  (is_Some base /\ is_Some (snd (Compiler.run base ss))).
Proof.
  rewrite run_build_loop. destruct base as [cfg|].
  - right. split; [eauto|]. simpl. apply build_loop_keeps_store. simpl. eauto.
  - left. split; [reflexivity|]. rewrite build_loop_null. reflexivity.
Qed.

(** X2: the merge keeps every name of the base cluster list at its index
    and appends each new name once: the names of the final list are those
    of the base list followed by the names that the fragments bring and
    the base list lacks, without repetition. *)
Theorem merged_names_extend_base (base : EnvoyConfig) (ss : list ServiceConfg) :
  listenersPresent base -> Forall iterable ss ->
  exists final fresh,
    Compiler.run (Some base) ss = (Normal tt, Some final) /\
    (name <$> clusterList final) = (name <$> clusterList base) ++ fresh /\
    NoDup fresh /\
    (forall n, n ∈ fresh <-> n ∈ (name <$> writes ss) /\ n ∉ (name <$> clusterList base)) /\
    length (clusterList final) = length (clusterList base) + length fresh.
Proof.
  intros Hp Hss.
  destruct (run_store ss base Hp Hss) as (final & Hrun & _ & Hcl & _).
  destruct (mergeClusters_fresh_names (writes ss) (clusterList base))
    as (fresh & Hnames & Hnd & Hfresh).
  exists final, fresh. rewrite Hcl.
  split; [exact Hrun|]. split; [exact Hnames|]. split; [exact Hnd|].
  split; [exact Hfresh|].
  rewrite <- (length_fmap name), Hnames, length_app, length_fmap. reflexivity.
Qed.

Lemma merged_names_extend_base_witness :
  exists final fresh,
    Compiler.run (Some Examples.scenario_base) [Examples.fragment1; Examples.fragment2]
      = (Normal tt, Some final) /\
    (name <$> clusterList final) = (name <$> clusterList Examples.scenario_base) ++ fresh /\
    NoDup fresh /\
    (forall n, n ∈ fresh <->
       n ∈ (name <$> writes [Examples.fragment1; Examples.fragment2]) /\
       n ∉ (name <$> clusterList Examples.scenario_base)) /\
    length (clusterList final) = length (clusterList Examples.scenario_base) + length fresh.
Proof.
  apply (merged_names_extend_base Examples.scenario_base
           [Examples.fragment1; Examples.fragment2]).
  - eexists _, _. split; reflexivity.
  - repeat constructor; eexists; reflexivity.
Defined.

(** X3: a cluster of the base document whose name no fragment writes is
    still there after the merge, unchanged and at the same index. *)
Theorem unwritten_cluster_stays_in_place
    (base : EnvoyConfig) (ss : list ServiceConfg) (i : nat) (c : Cluster) :
  listenersPresent base -> Forall iterable ss ->
  clusterList base !! i = Some c ->
  name c ∉ (name <$> writes ss) ->
  exists final,
    Compiler.run (Some base) ss = (Normal tt, Some final) /\
    clusterList final !! i = Some c.
Proof.
  intros Hp Hss Hi Hc.
  destruct (run_store ss base Hp Hss) as (final & Hrun & _ & Hcl & _).
  exists final. split; [exact Hrun|]. rewrite Hcl.
  apply mergeClusters_lookup_other; assumption.
Qed.

Lemma unwritten_cluster_stays_in_place_witness :
  exists final,
    Compiler.run (Some Examples.scenario_base) [Examples.fragment1]
      = (Normal tt, Some final) /\
    clusterList final !! 0 = Some {| name := "existing_cluster"; type := None |}.
Proof.
  apply (unwritten_cluster_stays_in_place Examples.scenario_base [Examples.fragment1] 0
           {| name := "existing_cluster"; type := None |}).
  - eexists _, _. split; reflexivity.
  - repeat constructor; eexists; reflexivity.
  - reflexivity.
  - simpl. intros H. apply list_elem_of_singleton in H. discriminate H.
Defined.

(** X4: the merge writes nothing but the cluster list and the routes of
    the first virtual host: with these two lists blanked, the final
    document is the base document (the other listeners, filter chains,
    filters and virtual hosts, and every name, are as they were). *)
Theorem build_changes_only_clusters_and_first_routes
    (base : EnvoyConfig) (ss : list ServiceConfg) :
  listenersPresent base -> Forall iterable ss ->
  exists final,
    Compiler.run (Some base) ss = (Normal tt, Some final) /\
    frame final = frame base.
Proof.
  intros Hp Hss.
  destruct (build_loop_store ss ss base Hp Hss) as (final & Hrun & _).
  exists final. split.
  - rewrite run_build_loop, Hrun. reflexivity.
  - apply (build_loop_frame ss ss base final Hp Hss Hrun).
Qed.

Lemma build_changes_only_clusters_and_first_routes_witness :
  exists final,
    Compiler.run (Some Examples.scenario_base) [Examples.fragment1; Examples.fragment2]
      = (Normal tt, Some final) /\
    frame final = frame Examples.scenario_base.
Proof.
  apply (build_changes_only_clusters_and_first_routes Examples.scenario_base
           [Examples.fragment1; Examples.fragment2]).
  - eexists _, _. split; reflexivity.
  - repeat constructor; eexists; reflexivity.
Defined.

Lemma oblivious_bind {A B} (f : St Compiler.t A) (g : A -> St Compiler.t B) :
  oblivious f -> (forall x, oblivious (g x)) -> oblivious (f ≫= g).
Proof.
  intros Hf Hg a b st. unfold mbind, St_bind.
  rewrite (Hf a b st).
  destruct (f (Compiler.mk b st)) as [[x|e] [b' st']] eqn:Hfb; simpl.
  - pose proof (Hf b b st) as Hbb. rewrite Hfb in Hbb. simpl in Hbb.
    injection Hbb as <-. apply Hg.
  - reflexivity.
Qed.

Lemma oblivious_pure {A} (c : completion A) : oblivious (fun this => (c, this)).
Proof. intros a b st. reflexivity. Qed.

Lemma oblivious_mergeClusterStmt (c : Cluster) : oblivious (Compiler.mergeClusterStmt c).
Proof.
  intros a b st. unfold Compiler.mergeClusterStmt. st_unfold. simpl.
  destruct st as [[[sr|]]|]; reflexivity.
Qed.

Lemma oblivious_for_of (cs : list Cluster) : oblivious (for_of cs Compiler.mergeClusterStmt).
Proof.
  induction cs as [|c cs IH]; simpl.
  - apply (oblivious_pure (Normal tt)).
  - apply oblivious_bind; [apply oblivious_mergeClusterStmt | intros _; exact IH].
Qed.

Lemma oblivious_addRoute (arg : option RouteArray) : oblivious (Compiler.addRoute arg).
Proof.
  intros a b st. unfold Compiler.addRoute. st_unfold. simpl.
  destruct st as [[[[[ls|] cs]|]]|]; try reflexivity.
  destruct ls as [|[ln [[|[[[|[fname [[sp [[rcn [[|vh0 vhs]|]]|]]|]] fs]|]] fcs]|]] ls];
    reflexivity.
Qed.

Lemma oblivious_mergeConfig (s : ServiceConfg) : oblivious (Compiler.mergeConfig s).
Proof.
  intros a b st. unfold Compiler.mergeConfig.
  destruct st as [cfg|]; [|reflexivity].
  change ((match sc_clusters s with
           | Some cs => for_of cs Compiler.mergeClusterStmt
           | None => throw (TypeError "service.clusters is not iterable")
           end ≫= fun _ => Compiler.addRoute (sc_routes s)) (Compiler.mk a (Some cfg)) =
          (fst ((match sc_clusters s with
                 | Some cs => for_of cs Compiler.mergeClusterStmt
                 | None => throw (TypeError "service.clusters is not iterable")
                 end ≫= fun _ => Compiler.addRoute (sc_routes s)) (Compiler.mk b (Some cfg))),
           Compiler.mk a (Compiler.store (snd
             ((match sc_clusters s with
               | Some cs => for_of cs Compiler.mergeClusterStmt
               | None => throw (TypeError "service.clusters is not iterable")
               end ≫= fun _ => Compiler.addRoute (sc_routes s)) (Compiler.mk b (Some cfg))))))).
  apply oblivious_bind.
  - destruct (sc_clusters s); [apply oblivious_for_of | apply (oblivious_pure (Thrown _))].
  - intros _. apply oblivious_addRoute.
Qed.

Lemma oblivious_build_loop (ss : list ServiceConfg) : oblivious (Compiler.build_loop ss).
Proof.
  induction ss as [|s ss IH]; [apply (oblivious_pure (Normal tt))|].
  intros a b st. destruct st as [cfg|]; [|reflexivity].
  change (Compiler.build_loop (s :: ss) (Compiler.mk a (Some cfg)))
    with ((Compiler.mergeConfig s ≫= fun _ => Compiler.build_loop ss) (Compiler.mk a (Some cfg))).
  change (Compiler.build_loop (s :: ss) (Compiler.mk b (Some cfg)))
    with ((Compiler.mergeConfig s ≫= fun _ => Compiler.build_loop ss) (Compiler.mk b (Some cfg))).
  apply oblivious_bind; [apply oblivious_mergeConfig | intros _; exact IH].
Qed.

Lemma run_oblivious (base : option EnvoyConfig) (ss a : list ServiceConfg) :
  Compiler.run base ss =
  (fst (Compiler.build_loop ss (Compiler.mk a base)),
   Compiler.store (snd (Compiler.build_loop ss (Compiler.mk a base)))).
Proof.
  rewrite run_build_loop, (oblivious_build_loop ss ss a base). reflexivity.
Qed.

Lemma run_app (base mid : EnvoyConfig) (ss1 ss2 : list ServiceConfg) :
  Compiler.run (Some base) ss1 = (Normal tt, Some mid) ->
  Compiler.run (Some base) (ss1 ++ ss2) = Compiler.run (Some mid) ss2.
Proof.
  rewrite (run_oblivious (Some base) ss1 []), (run_oblivious (Some base) (ss1 ++ ss2) []),
    (run_oblivious (Some mid) ss2 []).
  intros Hrun. injection Hrun as Hc Hst.
  rewrite build_loop_app. unfold mbind, St_bind.
  pose proof (oblivious_build_loop ss1 [] [] (Some base)) as Hob.
  rewrite Hc, Hst in Hob. rewrite Hob. reflexivity.
Qed.

(** X5: merging the fragments in two runs gives what one run over the
    whole list gives: when the run over the first part completes with the
    document [mid], the run over the whole list is the run over the second
    part started from [mid], exception included. *)
Theorem build_composes (base mid : EnvoyConfig) (ss1 ss2 : list ServiceConfg) :
  Compiler.run (Some base) ss1 = (Normal tt, Some mid) ->
  Compiler.run (Some base) (ss1 ++ ss2) = Compiler.run (Some mid) ss2.
Proof.
  rewrite (run_oblivious (Some base) ss1 []), (run_oblivious (Some base) (ss1 ++ ss2) []),
    (run_oblivious (Some mid) ss2 []).
  intros Hrun. injection Hrun as Hc Hst.
  rewrite build_loop_app. unfold mbind, St_bind.
  pose proof (oblivious_build_loop ss1 [] [] (Some base)) as Hob.
  rewrite Hc, Hst in Hob. rewrite Hob. reflexivity.
Qed.

Lemma build_composes_witness :
  Compiler.run (Some Examples.scenario_base) ([Examples.fragment1] ++ [Examples.fragment2]) =
  Compiler.run
    (Some (Examples.resolved_base [Examples.route "/health"; Examples.route "/v1"]
             [ {| name := "existing_cluster"; type := None |};
               {| name := "svc1"; type := None |} ]))
    [Examples.fragment2].
Proof.
  apply (build_composes Examples.scenario_base _ [Examples.fragment1] [Examples.fragment2]).
  reflexivity.
Defined.

(** X6: [build] is not atomic.  When a fragment without a cluster array
    follows fragments that merge, [build] throws at that fragment, the
    store keeps what the earlier fragments merged, and the later fragments
    are not looked at. *)
Theorem build_throws_after_partial_merge
    (base mid : EnvoyConfig) (ss1 : list ServiceConfg) (s : ServiceConfg)
    (ss2 : list ServiceConfg) :
  Compiler.run (Some base) ss1 = (Normal tt, Some mid) ->
  sc_clusters s = None ->
  Compiler.run (Some base) (ss1 ++ s :: ss2) =
  (Thrown (TypeError "service.clusters is not iterable"), Some mid).
Proof.
  intros Hrun Hs. rewrite (run_app base mid ss1 (s :: ss2) Hrun).
  rewrite (run_oblivious (Some mid) (s :: ss2) []). simpl. st_unfold. simpl.
  rewrite (mergeConfig_not_iterable s (Compiler.mk [] (Some mid)) mid eq_refl Hs).
  reflexivity.
Qed.

Lemma build_throws_after_partial_merge_witness :
  Compiler.run (Some Examples.scenario_base)
    ([Examples.fragment1] ++ Examples.clusters_absent :: [Examples.fragment2]) =
  (Thrown (TypeError "service.clusters is not iterable"),
   Some (Examples.resolved_base [Examples.route "/health"; Examples.route "/v1"]
           [ {| name := "existing_cluster"; type := None |};
             {| name := "svc1"; type := None |} ])).
Proof.
  apply (build_throws_after_partial_merge Examples.scenario_base _
           [Examples.fragment1] Examples.clusters_absent [Examples.fragment2]).
  - reflexivity.
  - reflexivity.
Defined.

Lemma run_without_listeners
    (sr : StaticResources) (s : ServiceConfg) (cs : list Cluster)
    (rest : list ServiceConfg) :
  listeners sr = None -> sc_clusters s = Some cs ->
  Compiler.run (Some {| static_resources := Some sr |}) (s :: rest) =
  (Thrown (TypeError "Cannot read properties of undefined (reading 'length')"),
   Some {| static_resources :=
             Some {| listeners := None;
                     clusters := mergeClusters cs (clusters sr) |} |}).
Proof.
  intros Hls Hcs. rewrite (run_oblivious _ (s :: rest) []). simpl. st_unfold. simpl.
  unfold Compiler.mergeConfig. st_unfold. simpl. rewrite Hcs.
  rewrite clusterLoop_store. rewrite Hls.
  rewrite (addRoute_absent_listeners
             (Compiler.mk [] (Some {| static_resources :=
                Some {| listeners := None; clusters := mergeClusters cs (clusters sr) |} |}))
             (mergeClusters cs (clusters sr)) (sc_routes s) eq_refl).
  reflexivity.
Qed.

(** X7: on a base document whose [static_resources] has no [listeners],
    [build] throws at the first fragment, whatever its routes are, after
    it has merged the clusters of that fragment into the store; the other
    fragments are not merged. *)
Theorem build_without_listeners_throws_at_first_fragment
    (sr : StaticResources) (s : ServiceConfg) (cs : list Cluster)
    (rest : list ServiceConfg) :
  listeners sr = None -> sc_clusters s = Some cs ->
  Compiler.run (Some {| static_resources := Some sr |}) (s :: rest) =
  (Thrown (TypeError "Cannot read properties of undefined (reading 'length')"),
   Some {| static_resources :=
             Some {| listeners := None;
                     clusters := mergeClusters cs (clusters sr) |} |}).
Proof.
  intros Hls Hcs. rewrite (run_oblivious _ (s :: rest) []). simpl. st_unfold. simpl.
  unfold Compiler.mergeConfig. st_unfold. simpl. rewrite Hcs.
  rewrite clusterLoop_store. rewrite Hls.
  rewrite (addRoute_absent_listeners
             (Compiler.mk [] (Some {| static_resources :=
                Some {| listeners := None; clusters := mergeClusters cs (clusters sr) |} |}))
             (mergeClusters cs (clusters sr)) (sc_routes s) eq_refl).
  reflexivity.
Qed.

Lemma build_without_listeners_throws_at_first_fragment_witness :
  Compiler.run (Some {| static_resources := Some {| listeners := None; clusters := [] |} |})
    (Examples.empty_fragment :: [Examples.fragment1]) =
  (Thrown (TypeError "Cannot read properties of undefined (reading 'length')"),
   Some {| static_resources :=
             Some {| listeners := None; clusters := mergeClusters [] [] |} |}).
Proof.
  apply (build_without_listeners_throws_at_first_fragment
           {| listeners := None; clusters := [] |} Examples.empty_fragment []
           [Examples.fragment1]).
  - reflexivity.
  - reflexivity.
Defined.

(** X8: merging the same fragments a second time leaves the cluster list
    as the first merge made it, and appends the routes of the fragments to
    the first virtual host once more. *)
Theorem second_build_keeps_clusters_and_repeats_routes
    (base : EnvoyConfig) (r0 : RouteArray) (ss : list ServiceConfg) :
  routeList base = Some r0 ->
  Forall (fun s => is_Some (sc_clusters s) /\ is_Some (sc_routes s)) ss ->
  exists once twice,
    Compiler.run (Some base) ss = (Normal tt, Some once) /\
    Compiler.run (Some once) ss = (Normal tt, Some twice) /\
    clusterList twice = clusterList once /\
    routeList once = Some (r0 ++ fragmentRoutes ss) /\
    routeList twice = Some (r0 ++ fragmentRoutes ss ++ fragmentRoutes ss).
Proof.
  intros Hr0 Hss.
  assert (Hit : Forall iterable ss).
  { eapply Forall_impl; [exact Hss|]. intros s [H _]. exact H. }
  assert (Hrs : Forall (fun s => is_Some (sc_routes s)) ss).
  { eapply Forall_impl; [exact Hss|]. intros s [_ H]. exact H. }
  destruct (run_store ss base (routeList_listenersPresent base r0 Hr0) Hit)
    as (once & Hrun1 & Hp1 & Hcl1 & Hrl1).
  destruct (run_store ss once Hp1 Hit) as (twice & Hrun2 & _ & Hcl2 & Hrl2).
  exists once, twice. split; [exact Hrun1|]. split; [exact Hrun2|].
  rewrite Hr0 in Hrl1. simpl in Hrl1. rewrite appendRoutes_arrays in Hrl1 by exact Hrs.
  split; [|split; [exact Hrl1|]].
  - rewrite Hcl2, Hcl1. apply mergeClusters_idempotent.
  - rewrite Hrl2, Hrl1. simpl. rewrite appendRoutes_arrays by exact Hrs.
    rewrite <- app_assoc. reflexivity.
Qed.

Lemma second_build_keeps_clusters_and_repeats_routes_witness :
  exists once twice,
    Compiler.run (Some Examples.scenario_base) [Examples.fragment1; Examples.fragment2]
      = (Normal tt, Some once) /\
    Compiler.run (Some once) [Examples.fragment1; Examples.fragment2]
      = (Normal tt, Some twice) /\
    clusterList twice = clusterList once /\
    routeList once =
      Some ([Examples.route "/health"] ++
            fragmentRoutes [Examples.fragment1; Examples.fragment2]) /\
    routeList twice =
      Some ([Examples.route "/health"] ++
            fragmentRoutes [Examples.fragment1; Examples.fragment2] ++
            fragmentRoutes [Examples.fragment1; Examples.fragment2]).
Proof.
  apply (second_build_keeps_clusters_and_repeats_routes Examples.scenario_base
           [Examples.route "/health"] [Examples.fragment1; Examples.fragment2]).
  - reflexivity.
  - repeat constructor; eexists; reflexivity.
Defined.

(** * Further properties of discovery *)

Lemma filesWritten_app (t1 t2 : list FsEvent) :
  filesWritten (t1 ++ t2) = filesWritten t1 ++ filesWritten t2.
Proof. apply omap_app. Qed.

Lemma writeFree_ret {A} (a : A) : writeFree (mret a : Io A).
Proof. reflexivity. Qed.

Lemma writeFree_throw {A} (e : JsError) : writeFree (io_throw e : Io A).
Proof. reflexivity. Qed.

Lemma writeFree_bind {A B} (m : Io A) (k : A -> Io B) :
  writeFree m -> (forall a, writeFree (k a)) -> writeFree (m ≫= k).
Proof.
  unfold writeFree. intros Hm Hk. destruct m as [[a|e] t]; io_unfold; simpl in *.
  - specialize (Hk a). destruct (k a) as [r t']. simpl in *.
    rewrite filesWritten_app, Hm, Hk. reflexivity.
  - exact Hm.
Qed.

Lemma writeFree_try_catch {A} (m : Io A) (h : JsError -> Io A) :
  writeFree m -> (forall e, writeFree (h e)) -> writeFree (try_catch m h).
Proof.
  unfold writeFree. intros Hm Hh. destruct m as [[a|e] t]; io_unfold; simpl in *.
  - exact Hm.
  - specialize (Hh e). destruct (h e) as [r t']. simpl in *.
    rewrite filesWritten_app, Hm, Hh. reflexivity.
Qed.

Lemma sortContents_cons (fs : NodeFs) (dir item : string) (rest : list string)
    (acc : FsTools.DirContents) :
  FsTools.sortContents fs dir (item :: rest) acc =
  (lstatSync fs (join fs dir item) ≫= fun stats =>
   FsTools.sortContents fs dir rest
     match stats with
     | StatFile =>
         {| FsTools.folders := FsTools.folders acc;
            FsTools.files := push (FsTools.files acc) item |}
     | StatDirectory =>
         {| FsTools.folders := push (FsTools.folders acc) item;
            FsTools.files := FsTools.files acc |}
     | StatOther => acc
     end).
Proof. reflexivity. Qed.

Lemma collect_loop_cons (fs : NodeFs) (this : ConfigDiscover.t) (fp : string)
    (rest : list string) (services : list ServiceConfg) :
  ConfigDiscover.collect_loop fs this (fp :: rest) services =
  (ConfigDiscover.findServiceConfigs fs this fp ≫= fun service =>
   ConfigDiscover.collect_loop fs this rest
     match service with
     | Some service => push services service
     | None => services
     end).
Proof. reflexivity. Qed.

Lemma writeFree_sortContents (fs : NodeFs) (dir : string) (entries : list string)
    (acc : FsTools.DirContents) :
  writeFree (FsTools.sortContents fs dir entries acc).
Proof.
  revert acc. induction entries as [|item entries IH]; intros acc.
  - apply writeFree_ret.
  - rewrite sortContents_cons. apply writeFree_bind; [|intros st; apply IH].
    unfold writeFree, lstatSync. reflexivity.
Qed.

Lemma writeFree_listDirContents (fs : NodeFs) (dir : string) :
  writeFree (FsTools.listDirContents fs dir).
Proof.
  unfold FsTools.listDirContents. apply writeFree_try_catch.
  - apply writeFree_bind; [unfold writeFree, readdirSync; reflexivity|].
    intros contents. apply writeFree_bind; [apply writeFree_sortContents|].
    intros c. apply writeFree_ret.
  - intros e. apply writeFree_ret.
Qed.

Lemma writeFree_read_yaml (fs : NodeFs) (path : string) :
  writeFree (YamlTools.read_yaml fs path).
Proof. unfold writeFree. rewrite read_yaml_eval. reflexivity. Qed.

Lemma writeFree_getRoutes (fs : NodeFs) (dir : string) :
  writeFree (ConfigDiscover.getRoutes fs dir).
Proof.
  unfold ConfigDiscover.getRoutes.
  apply writeFree_bind; [apply writeFree_listDirContents|].
  intros [c|]; [|apply writeFree_ret].
  unfold writeFree. rewrite getRoutes_loop_eval. unfold trace. simpl.
  induction (List.filter isYaml (FsTools.files c)) as [|f l IH]; [reflexivity | exact IH].
Qed.

Lemma writeFree_getClusters (fs : NodeFs) (dir : string) :
  writeFree (ConfigDiscover.getClusters fs dir).
Proof.
  unfold ConfigDiscover.getClusters.
  apply writeFree_bind; [apply writeFree_listDirContents|].
  intros [c|]; [|apply writeFree_ret].
  unfold writeFree. rewrite getClusters_loop_eval. unfold trace. simpl.
  induction (List.filter isYaml (FsTools.files c)) as [|f l IH]; [reflexivity | exact IH].
Qed.

Lemma writeFree_findServiceConfigs (fs : NodeFs) (this : ConfigDiscover.t) (p : string) :
  writeFree (ConfigDiscover.findServiceConfigs fs this p).
Proof.
  unfold ConfigDiscover.findServiceConfigs.
  apply writeFree_bind; [apply writeFree_listDirContents|].
  intros [c|]; [|apply writeFree_ret].
  destruct (List.find _ _) as [configFolder|]; [|apply writeFree_ret].
  destruct (ConfigDiscover.truthy configFolder); [|apply writeFree_ret].
  apply writeFree_bind; [apply writeFree_getRoutes|]. intros rs.
  apply writeFree_bind; [apply writeFree_getClusters|]. intros cs.
  destruct (_ || _); apply writeFree_ret.
Qed.

Lemma writeFree_collect_loop (fs : NodeFs) (this : ConfigDiscover.t) (paths : list string)
    (acc : list ServiceConfg) :
  writeFree (ConfigDiscover.collect_loop fs this paths acc).
Proof.
  revert acc. induction paths as [|p paths IH]; intros acc.
  - apply writeFree_ret.
  - rewrite collect_loop_cons.
    apply writeFree_bind; [apply writeFree_findServiceConfigs | intros o; apply IH].
Qed.

Lemma writeFree_collectBase (fs : NodeFs) (this : ConfigDiscover.t) :
  writeFree (ConfigDiscover.collectBase fs this).
Proof.
  unfold ConfigDiscover.collectBase.
  apply writeFree_bind; [apply writeFree_read_yaml|].
  intros [[|r c sr]|]; first [apply writeFree_ret | apply writeFree_throw].
Qed.

(** ** Directory listings *)

Lemma sortContents_ok (fs : NodeFs) (dir : string) (entries : list string)
    (acc : FsTools.DirContents) :
  forallb (statable fs dir) entries = true ->
  value (FsTools.sortContents fs dir entries acc) =
    Normal {| FsTools.folders :=
                FsTools.folders acc ++ List.filter (isDirectory fs dir) entries;
              FsTools.files :=
                FsTools.files acc ++ List.filter (isFile fs dir) entries |}.
Proof.
  revert acc. induction entries as [|item entries IH]; intros acc Hall.
  - simpl. rewrite !app_nil_r. destruct acc; reflexivity.
  - simpl in Hall. apply andb_prop in Hall as [Hitem Hall].
    rewrite sortContents_cons. simpl List.filter.
    unfold statable in Hitem. unfold lstatSync, isDirectory at 1, isFile at 1.
    destruct (fs_lstat fs (join fs dir item)) as [st|]; [|discriminate Hitem].
    erewrite bind_eval by reflexivity. unfold value at 1. simpl fst.
    rewrite (IH _ Hall). unfold push.
    destruct st; simpl; rewrite <- ?app_assoc; reflexivity.
Qed.

Lemma sortContents_fail (fs : NodeFs) (dir : string) (entries : list string)
    (acc : FsTools.DirContents) :
  forallb (statable fs dir) entries = false ->
  exists e, value (FsTools.sortContents fs dir entries acc) = Thrown e.
Proof.
  revert acc. induction entries as [|item entries IH]; intros acc Hall.
  - discriminate Hall.
  - simpl in Hall. rewrite sortContents_cons.
    unfold statable in Hall at 1. unfold lstatSync.
    destruct (fs_lstat fs (join fs dir item)) as [st|]; simpl in Hall.
    + erewrite bind_eval by reflexivity. unfold value at 1. simpl fst. apply IH, Hall.
    + io_unfold. simpl. eauto.
Qed.

Lemma listDirContents_value (fs : NodeFs) (dir : string) :
  value (FsTools.listDirContents fs dir) =
  Normal
    match fs_readdir fs dir with
    | None => None
    | Some entries =>
      if forallb (statable fs dir) entries then
        Some {| FsTools.folders := List.filter (isDirectory fs dir) entries;
                FsTools.files := List.filter (isFile fs dir) entries |}
      else None
    end.
Proof.
  unfold FsTools.listDirContents, readdirSync.
  destruct (fs_readdir fs dir) as [entries|]; [|reflexivity].
  erewrite bind_eval by reflexivity.
  destruct (forallb (statable fs dir) entries) eqn:Hall.
  - pose proof (sortContents_ok fs dir entries
                  {| FsTools.folders := []; FsTools.files := [] |} Hall) as Hok.
    destruct (FsTools.sortContents fs dir entries _) as [v t].
    simpl in Hok. subst v. reflexivity.
  - destruct (sortContents_fail fs dir entries
                {| FsTools.folders := []; FsTools.files := [] |} Hall) as [e He].
    destruct (FsTools.sortContents fs dir entries _) as [v t].
    simpl in He. subst v. reflexivity.
Qed.

(** X9: [listDirContents] is all or nothing.  It answers [null] when the
    directory cannot be read or when one of its entries cannot be examined;
    otherwise it answers the entries that are directories and those that
    are regular files, each in the order of the listing.  An entry that is
    neither (a symbolic link is examined, not followed) is in neither
    list.  It never throws. *)
Theorem listDirContents_all_or_nothing (fs : NodeFs) (dir : string) :
  value (FsTools.listDirContents fs dir) =
  Normal
    match fs_readdir fs dir with
    | None => None
    | Some entries =>
      if forallb (statable fs dir) entries then
        Some {| FsTools.folders := List.filter (isDirectory fs dir) entries;
                FsTools.files := List.filter (isFile fs dir) entries |}
      else None
    end.
Proof.
  unfold FsTools.listDirContents, readdirSync.
  destruct (fs_readdir fs dir) as [entries|]; [|reflexivity].
  erewrite bind_eval by reflexivity.
  destruct (forallb (statable fs dir) entries) eqn:Hall.
  - pose proof (sortContents_ok fs dir entries
                  {| FsTools.folders := []; FsTools.files := [] |} Hall) as Hok.
    destruct (FsTools.sortContents fs dir entries _) as [v t].
    simpl in Hok. subst v. reflexivity.
  - destruct (sortContents_fail fs dir entries
                {| FsTools.folders := []; FsTools.files := [] |} Hall) as [e He].
    destruct (FsTools.sortContents fs dir entries _) as [v t].
    simpl in He. subst v. reflexivity.
Qed.

(** ** Service directories and their fragments *)

Lemma findServiceConfigs_found (fs : NodeFs) (this : ConfigDiscover.t) (p : string)
    (c : FsTools.DirContents) (rs : RouteArray) (cs : list Cluster) :
  value (FsTools.listDirContents fs p) = Normal (Some c) ->
  ConfigDiscover.configFolderName this ∈ FsTools.folders c ->
  ConfigDiscover.configFolderName this <> "" ->
  value (ConfigDiscover.getRoutes fs (routesFolder fs this p)) = Normal rs ->
  value (ConfigDiscover.getClusters fs (clustersFolder fs this p)) = Normal cs ->
  value (ConfigDiscover.findServiceConfigs fs this p) =
    Normal (if (0 <? length rs) || (0 <? length cs)
            then Some {| sc_clusters := Some cs; sc_routes := Some rs |}
            else None) /\
  filesRead (trace (ConfigDiscover.findServiceConfigs fs this p)) =
    filesRead (trace (ConfigDiscover.getRoutes fs (routesFolder fs this p))) ++
    filesRead (trace (ConfigDiscover.getClusters fs (clustersFolder fs this p))).
Proof.
  unfold routesFolder, clustersFolder. intros Hls Hin Hne Hrs Hcs.
  destruct (listDirContents_total fs p) as (o & t & Hrun & Htr).
  rewrite Hrun in Hls. injection Hls as ->.
  unfold ConfigDiscover.findServiceConfigs. rewrite (bind_eval _ _ _ _ Hrun).
  simpl. rewrite find_name. destruct (decide _) as [_|Hout]; [|contradiction].
  unfold ConfigDiscover.truthy.
  destruct (String.eqb_spec (ConfigDiscover.configFolderName this) "") as [|_];
    [contradiction|]. simpl negb. cbv iota.
  destruct (ConfigDiscover.getRoutes fs _) as [v1 t1] eqn:Hr. simpl in Hrs. subst v1.
  destruct (ConfigDiscover.getClusters fs _) as [v2 t2] eqn:Hc. simpl in Hcs. subst v2.
  rewrite (bind_eval _ _ _ _ eq_refl), (bind_eval _ _ _ _ eq_refl).
  unfold value, trace. simpl.
  rewrite !filesRead_app, Htr. simpl.
  destruct ((0 <? length rs) || (0 <? length cs)); simpl;
    rewrite ?app_nil_r; split; reflexivity.
Qed.

Lemma findServiceConfigs_not_found (fs : NodeFs) (this : ConfigDiscover.t) (p : string) :
  (value (FsTools.listDirContents fs p) = Normal None \/
   (exists c, value (FsTools.listDirContents fs p) = Normal (Some c) /\
              ConfigDiscover.configFolderName this ∉ FsTools.folders c) \/
   ConfigDiscover.configFolderName this = "") ->
  value (ConfigDiscover.findServiceConfigs fs this p) = Normal None /\
  filesRead (trace (ConfigDiscover.findServiceConfigs fs this p)) = [].
Proof.
  intros Hskip.
  destruct (listDirContents_total fs p) as (o & t & Hrun & Htr).
  unfold ConfigDiscover.findServiceConfigs. rewrite (bind_eval _ _ _ _ Hrun).
  rewrite Hrun in Hskip. unfold value at 1 2 in Hskip. simpl in Hskip.
  unfold value, trace. simpl.
  destruct o as [c|]; simpl; [|rewrite app_nil_r; split; [reflexivity | exact Htr]].
  rewrite find_name. destruct (decide _) as [Hin|Hout]; simpl;
    [|rewrite app_nil_r; split; [reflexivity | exact Htr]].
  destruct Hskip as [[=] | [(c' & [= <-] & Hc') | Hempty]]; [contradiction|].
  rewrite Hempty. simpl. rewrite app_nil_r. split; [reflexivity | exact Htr].
Qed.

Lemma findServiceConfigs_cases (fs : NodeFs) (this : ConfigDiscover.t) (p : string) :
  (value (ConfigDiscover.findServiceConfigs fs this p) = Normal None /\
   filesRead (trace (ConfigDiscover.findServiceConfigs fs this p)) = []) \/
  exists c rs cs,
    value (FsTools.listDirContents fs p) = Normal (Some c) /\
    ConfigDiscover.configFolderName this ∈ FsTools.folders c /\
    value (ConfigDiscover.getRoutes fs (routesFolder fs this p)) = Normal rs /\
    value (ConfigDiscover.getClusters fs (clustersFolder fs this p)) = Normal cs /\
    value (ConfigDiscover.findServiceConfigs fs this p) =
      Normal (if (0 <? length rs) || (0 <? length cs)
              then Some {| sc_clusters := Some cs; sc_routes := Some rs |}
              else None) /\
    filesRead (trace (ConfigDiscover.findServiceConfigs fs this p)) =
      filesRead (trace (ConfigDiscover.getRoutes fs (routesFolder fs this p))) ++
      filesRead (trace (ConfigDiscover.getClusters fs (clustersFolder fs this p))).
Proof.
  destruct (listDirContents_total fs p) as (o & t & Hrun & _).
  assert (Hls : value (FsTools.listDirContents fs p) = Normal o) by (rewrite Hrun; reflexivity).
  destruct o as [c|]; [|left; apply findServiceConfigs_not_found; left; exact Hls].
  destruct (decide (ConfigDiscover.configFolderName this ∈ FsTools.folders c)) as [Hin|Hout];
    [|left; apply findServiceConfigs_not_found; right; left; eauto].
  destruct (decide (ConfigDiscover.configFolderName this = "")) as [He|Hne];
    [left; apply findServiceConfigs_not_found; right; right; exact He|].
  destruct (getRoutes_total fs (routesFolder fs this p)) as (rs & t1 & Hr).
  destruct (getClusters_total fs (clustersFolder fs this p)) as (cs & t2 & Hc).
  right. exists c, rs, cs.
  assert (Hrs : value (ConfigDiscover.getRoutes fs (routesFolder fs this p)) = Normal rs)
    by (rewrite Hr; reflexivity).
  assert (Hcs : value (ConfigDiscover.getClusters fs (clustersFolder fs this p)) = Normal cs)
    by (rewrite Hc; reflexivity).
  split; [exact Hls|]. split; [exact Hin|]. split; [exact Hrs|]. split; [exact Hcs|].
  apply (findServiceConfigs_found fs this p c rs cs); assumption.
Qed.

Lemma discovered_shape (fs : NodeFs) (this : ConfigDiscover.t) (p : string) (s : ServiceConfg) :
  discovered fs this p = Some s ->
  exists rs cs, s = {| sc_clusters := Some cs; sc_routes := Some rs |} /\
                (rs <> [] \/ cs <> []).
Proof.
  unfold discovered.
  destruct (findServiceConfigs_cases fs this p)
    as [[-> _] | (c & rs & cs & _ & _ & _ & _ & -> & _)]; [discriminate|].
  destruct rs as [|r rs]; destruct cs as [|c0 cs]; simpl; intros [= <-];
    eexists _, _; (split; [reflexivity|]); first [left; discriminate | right; discriminate].
Qed.

(** X10: [collect] never throws and writes no file; it returns at most one
    fragment per service directory, and every fragment it returns has its
    two arrays, one of them at least not empty. *)
Theorem collect_returns_complete_non_empty_fragments
    (fs : NodeFs) (this : ConfigDiscover.t) :
  exists services,
    value (ConfigDiscover.collect fs this) = Normal services /\
    length services <= length (ConfigDiscover.folderPaths this) /\
    Forall (fun s => exists rs cs,
              s = {| sc_clusters := Some cs; sc_routes := Some rs |} /\
              (rs <> [] \/ cs <> [])) services /\
    filesWritten (trace (ConfigDiscover.collect fs this)) = [].
Proof.
  destruct (collect_total fs this) as [t Hcol].
  exists (omap (discovered fs this) (ConfigDiscover.folderPaths this)).
  split; [rewrite Hcol; reflexivity|]. split; [|split].
  - generalize (ConfigDiscover.folderPaths this) as paths.
    induction paths as [|p paths IH]; simpl; [lia|].
    unfold omap in IH. destruct (discovered fs this p); simpl; lia.
  - apply Forall_forall. intros s Hs.
    apply list_elem_of_omap in Hs as (p & _ & Hp).
    apply (discovered_shape fs this p s Hp).
  - apply writeFree_collect_loop.
Qed.

(** X11: a service directory whose configuration folder holds no route and
    no cluster gives no fragment, not an empty one. *)
Theorem empty_config_folder_gives_no_fragment
    (fs : NodeFs) (this : ConfigDiscover.t) (p : string) (c : FsTools.DirContents) :
  value (FsTools.listDirContents fs p) = Normal (Some c) ->
  ConfigDiscover.configFolderName this ∈ FsTools.folders c ->
  value (ConfigDiscover.getRoutes fs (routesFolder fs this p)) = Normal [] ->
  value (ConfigDiscover.getClusters fs (clustersFolder fs this p)) = Normal [] ->
  value (ConfigDiscover.findServiceConfigs fs this p) = Normal None.
Proof.
  intros Hls Hin Hrs Hcs.
  destruct (decide (ConfigDiscover.configFolderName this = "")) as [He|Hne].
  - apply findServiceConfigs_not_found. right. right. exact He.
  - apply (findServiceConfigs_found fs this p c [] [] Hls Hin Hne Hrs Hcs).
Qed.

Lemma empty_config_folder_gives_no_fragment_witness :
  value (ConfigDiscover.findServiceConfigs MoreExamples.fs
           (ConfigDiscover.constructor ["svc6"] "base.yaml" None) "svc6") = Normal None.
Proof.
  apply (empty_config_folder_gives_no_fragment MoreExamples.fs
           (ConfigDiscover.constructor ["svc6"] "base.yaml" None) "svc6"
           {| FsTools.folders := ["envoy"]; FsTools.files := [] |}).
  - reflexivity.
  - simpl. apply list_elem_of_singleton. reflexivity.
  - reflexivity.
  - reflexivity.
Defined.

(** X12: a [routes] folder that cannot be listed (it does not exist, say)
    counts as a folder without routes: the fragment of the service holds
    the clusters found and an empty route array. *)
Theorem missing_routes_folder_counts_as_no_routes
    (fs : NodeFs) (this : ConfigDiscover.t) (p : string) (c : FsTools.DirContents)
    (cs : list Cluster) :
  value (FsTools.listDirContents fs p) = Normal (Some c) ->
  ConfigDiscover.configFolderName this ∈ FsTools.folders c ->
  ConfigDiscover.configFolderName this <> "" ->
  value (FsTools.listDirContents fs (routesFolder fs this p)) = Normal None ->
  value (ConfigDiscover.getClusters fs (clustersFolder fs this p)) = Normal cs ->
  cs <> [] ->
  value (ConfigDiscover.findServiceConfigs fs this p) =
    Normal (Some {| sc_clusters := Some cs; sc_routes := Some [] |}).
Proof.
  intros Hls Hin Hne Hroutes Hcs Hnonempty.
  destruct (getRoutes_eval fs (routesFolder fs this p) None Hroutes) as [Hrs _].
  simpl in Hrs.
  destruct (findServiceConfigs_found fs this p c [] cs Hls Hin Hne Hrs Hcs) as [Hval _].
  rewrite Hval. destruct cs; [contradiction | reflexivity].
Qed.

Lemma missing_routes_folder_counts_as_no_routes_witness :
  value (ConfigDiscover.findServiceConfigs MoreExamples.fs
           (ConfigDiscover.constructor ["svc7"] "base.yaml" None) "svc7") =
    Normal (Some {| sc_clusters := Some [ {| name := "svc1"; type := None |} ];
                    sc_routes := Some [] |}).
Proof.
  apply (missing_routes_folder_counts_as_no_routes MoreExamples.fs
           (ConfigDiscover.constructor ["svc7"] "base.yaml" None) "svc7"
           {| FsTools.folders := ["envoy"]; FsTools.files := [] |}).
  - reflexivity.
  - simpl. apply list_elem_of_singleton. reflexivity.
  - discriminate.
  - reflexivity.
  - reflexivity.
  - discriminate.
Defined.

Lemma filter_elem_true {A} (f : A -> bool) (l : list A) (x : A) :
  x ∈ List.filter f l -> f x = true.
Proof.
  intros Hx. apply list_elem_of_In, filter_In in Hx. tauto.
Qed.

(** X13: the configuration folder must be a directory for [lstatSync],
    which does not follow symbolic links: when the entry of that name is a
    symbolic link, a file, or is absent, the service gives no fragment and
    none of its files is read. *)
Theorem config_folder_must_be_a_directory
    (fs : NodeFs) (this : ConfigDiscover.t) (p : string) :
  fs_lstat fs (join fs p (ConfigDiscover.configFolderName this)) <> Some StatDirectory ->
  value (ConfigDiscover.findServiceConfigs fs this p) = Normal None /\
  filesRead (trace (ConfigDiscover.findServiceConfigs fs this p)) = [].
Proof.
  intros Hstat. apply findServiceConfigs_not_found.
  destruct (listDirContents_eval fs p) as (_ & o & Hval & Hsome).
  destruct o as [c|]; [|left; exact Hval].
  right. left. exists c. split; [exact Hval|].
  destruct (Hsome c eq_refl) as (entries & _ & Hfolders & _).
  rewrite Hfolders. intros Hin. apply filter_elem_true in Hin.
  unfold isDirectory in Hin.
  destruct (fs_lstat fs (join fs p (ConfigDiscover.configFolderName this))) as [[]|];
    try discriminate Hin. apply Hstat. reflexivity.
Qed.

Lemma config_folder_must_be_a_directory_witness :
  value (ConfigDiscover.findServiceConfigs MoreExamples.fs
           (ConfigDiscover.constructor ["svc4"] "base.yaml" None) "svc4") = Normal None /\
  filesRead (trace (ConfigDiscover.findServiceConfigs MoreExamples.fs
           (ConfigDiscover.constructor ["svc4"] "base.yaml" None) "svc4")) = [].
Proof.
  apply (config_folder_must_be_a_directory MoreExamples.fs
           (ConfigDiscover.constructor ["svc4"] "base.yaml" None) "svc4").
  simpl. discriminate.
Defined.

(** X14: one entry of a service directory that cannot be examined hides
    the whole service: the directory listing is [null], and the service
    gives no fragment even when its configuration folder is in order. *)
Theorem one_unexaminable_entry_hides_the_service
    (fs : NodeFs) (this : ConfigDiscover.t) (p : string) (entries : list string)
    (item : string) :
  fs_readdir fs p = Some entries ->
  item ∈ entries ->
  fs_lstat fs (join fs p item) = None ->
  value (FsTools.listDirContents fs p) = Normal None /\
  value (ConfigDiscover.findServiceConfigs fs this p) = Normal None.
Proof.
  intros Hdir Hitem Hstat.
  assert (Hnull : value (FsTools.listDirContents fs p) = Normal None).
  { rewrite listDirContents_value, Hdir.
    destruct (forallb (statable fs p) entries) eqn:Hall; [|reflexivity].
    rewrite forallb_forall in Hall.
    specialize (Hall item (proj1 (list_elem_of_In _ _) Hitem)).
    unfold statable in Hall. rewrite Hstat in Hall. discriminate Hall. }
  split; [exact Hnull|].
  apply findServiceConfigs_not_found. left. exact Hnull.
Qed.

Lemma one_unexaminable_entry_hides_the_service_witness :
  value (FsTools.listDirContents MoreExamples.fs "svc5") = Normal None /\
  value (ConfigDiscover.findServiceConfigs MoreExamples.fs
           (ConfigDiscover.constructor ["svc5"] "base.yaml" None) "svc5") = Normal None.
Proof.
  apply (one_unexaminable_entry_hides_the_service MoreExamples.fs
           (ConfigDiscover.constructor ["svc5"] "base.yaml" None) "svc5"
           ["envoy"; "locked"] "locked").
  - reflexivity.
  - apply elem_of_cons. right. apply list_elem_of_singleton. reflexivity.
  - reflexivity.
Defined.

(** X15: for one service directory, discovery reads no file but those of
    the [routes] and [clusters] folders of its configuration folder whose
    name contains ".yaml". *)
Theorem discovery_reads_only_fragment_files
    (fs : NodeFs) (this : ConfigDiscover.t) (p : string) :
  Forall (fun path => exists f,
            includes f ".yaml" = true /\
            (path = join fs (routesFolder fs this p) f \/
             path = join fs (clustersFolder fs this p) f))
         (filesRead (trace (ConfigDiscover.findServiceConfigs fs this p))).
Proof.
  destruct (findServiceConfigs_cases fs this p)
    as [[_ ->] | (c & rs & cs & _ & _ & _ & _ & _ & ->)]; [constructor|].
  destruct (listDirContents_total fs (routesFolder fs this p)) as (o1 & t1 & H1 & _).
  destruct (listDirContents_total fs (clustersFolder fs this p)) as (o2 & t2 & H2 & _).
  destruct (getRoutes_eval fs (routesFolder fs this p) o1) as [_ ->];
    [rewrite H1; reflexivity|].
  destruct (getClusters_eval fs (clustersFolder fs this p) o2) as [_ ->];
    [rewrite H2; reflexivity|].
  apply Forall_app. split; apply Forall_forall; intros path Hpath;
    apply list_elem_of_fmap in Hpath as (f & -> & Hf);
    apply filter_elem_true in Hf; exists f; (split; [exact Hf|]); [left | right];
    reflexivity.
Qed.


(** * Further properties of the entry point *)

Lemma collectBase_eval (fs : NodeFs) (this : ConfigDiscover.t) :
  ConfigDiscover.collectBase fs this =
  (match parseFile fs (ConfigDiscover.baseConfigPath this) with
   | Some (DocTruthy _ _ sr) => Normal {| static_resources := sr |}
   | _ => Thrown (Error ("base envoy config not found at " +:+
                         ConfigDiscover.baseConfigPath this))
   end,
   [ReadFile (ConfigDiscover.baseConfigPath this)]).
Proof.
  unfold ConfigDiscover.collectBase.
  rewrite (bind_eval _ _ _ _ (read_yaml_eval fs _)).
  destruct (parseFile fs _) as [[|r c sr]|]; reflexivity.
Qed.

(** What [execute] answers and what it leaves in the trace, case by case. *)
Lemma execute_eval (fs : NodeFs)
    (request_options : option (list (string * EnvoyProxyPlugin.OptionValue))) :
  let options := EnvoyProxyPlugin.parse_options request_options in
  let discovery := EnvoyProxyPlugin.discovery_of options in
  let services := omap (discovered fs discovery) (EnvoyProxyPlugin.items options) in
  let collected := trace (ConfigDiscover.collect fs discovery) in
  EnvoyProxyPlugin.execute fs request_options =
  match parseFile fs (EnvoyProxyPlugin.base options) with
  | Some (DocTruthy _ _ sr) =>
    match Compiler.run (Some {| static_resources := sr |}) services with
    | (Normal _, Some compiled) =>
      (Normal (EnvoyProxyPlugin.Json compiled),
       collected ++ [ReadFile (EnvoyProxyPlugin.base options);
                     WriteFile (EnvoyProxyPlugin.output options) compiled])
    | (Normal _, None) =>
      (Normal (EnvoyProxyPlugin.Text "Error: envoy proxy configuration compilation failed"),
       collected ++ [ReadFile (EnvoyProxyPlugin.base options)])
    | (Thrown e, _) =>
      (Normal (EnvoyProxyPlugin.Text ("Error: " +:+ error_message e)),
       collected ++ [ReadFile (EnvoyProxyPlugin.base options)])
    end
  | _ =>
    (Normal (EnvoyProxyPlugin.Text
               ("Error: base envoy config not found at " +:+ EnvoyProxyPlugin.base options)),
     collected ++ [ReadFile (EnvoyProxyPlugin.base options)])
  end.
Proof.
  intros options discovery services collected.
  destruct (collect_total fs discovery) as [t Hcol].
  assert (Ht : collected = t) by (unfold collected; rewrite Hcol; reflexivity).
  unfold EnvoyProxyPlugin.execute. fold options. cbv zeta. fold discovery.
  rewrite (bind_eval _ _ _ _ Hcol), collectBase_eval.
  change (ConfigDiscover.baseConfigPath discovery) with (EnvoyProxyPlugin.base options).
  change (ConfigDiscover.folderPaths discovery) with (EnvoyProxyPlugin.items options).
  fold services. rewrite Ht. clear Hcol Ht. clearbody services.
  destruct (parseFile fs (EnvoyProxyPlugin.base options)) as [[|r c sr]|];
    try (io_unfold; simpl; rewrite app_nil_r; reflexivity).
  io_unfold. simpl.
  destruct (Compiler.run (Some {| static_resources := sr |}) services)
    as [[[]|e] [compiled|]]; simpl; rewrite ?app_nil_r; reflexivity.
Qed.

Lemma run_keeps_document (cfg : EnvoyConfig) (ss : list ServiceConfg) :
  is_Some (snd (Compiler.run (Some cfg) ss)).
Proof.
  rewrite run_build_loop. simpl. apply build_loop_keeps_store. simpl. eauto.
Qed.

Lemma discovered_iterable (fs : NodeFs) (this : ConfigDiscover.t) (paths : list string) :
  Forall (fun s => is_Some (sc_clusters s) /\ is_Some (sc_routes s))
         (omap (discovered fs this) paths).
Proof.
  apply Forall_forall. intros s Hs.
  apply list_elem_of_omap in Hs as (p & _ & Hp).
  destruct (discovered_shape fs this p s Hp) as (rs & cs & -> & _).
  split; eexists; reflexivity.
Qed.




(** X19: with a base document whose [static_resources] has no [listeners]
    and at least one fragment collected, [execute] answers the text of the
    [TypeError] and writes nothing. *)
Theorem execute_without_listeners_fails (fs : NodeFs)
    (request_options : option (list (string * EnvoyProxyPlugin.OptionValue)))
    (options : EnvoyProxyPlugin.Options)
    (r : YamlProp RouteArray) (c : YamlProp (list Cluster)) (sr : StaticResources)
    (s : ServiceConfg) (rest : list ServiceConfg) :
  options = EnvoyProxyPlugin.parse_options request_options ->
  parseFile fs (EnvoyProxyPlugin.base options) = Some (DocTruthy r c (Some sr)) ->
  listeners sr = None ->
  value (ConfigDiscover.collect fs (EnvoyProxyPlugin.discovery_of options)) =
    Normal (s :: rest) ->
  value (EnvoyProxyPlugin.execute fs request_options) =
    Normal (EnvoyProxyPlugin.Text
              "Error: Cannot read properties of undefined (reading 'length')") /\
  filesWritten (trace (EnvoyProxyPlugin.execute fs request_options)) = [].
Proof.
  intros -> Hbase Hls Hcol.
  set (options := EnvoyProxyPlugin.parse_options request_options) in *.
  set (discovery := EnvoyProxyPlugin.discovery_of options) in *.
  destruct (collect_total fs discovery) as [t Ht].
  rewrite Ht in Hcol. simpl in Hcol. injection Hcol as Hsv.
  pose proof (discovered_iterable fs discovery (EnvoyProxyPlugin.items options)) as Hshape.
  change (ConfigDiscover.folderPaths discovery) with (EnvoyProxyPlugin.items options) in Hsv.
  rewrite Hsv in Hshape. apply Forall_cons in Hshape as [[[cs Hcs] _] _].
  pose proof (writeFree_collect_loop fs discovery (ConfigDiscover.folderPaths discovery) [])
    as Hfree.
  unfold writeFree in Hfree. fold (ConfigDiscover.collect fs discovery) in Hfree.
  rewrite execute_eval. cbv zeta. fold options. fold discovery.
  rewrite Hbase, Hsv.
  rewrite (run_without_listeners sr s cs rest Hls Hcs).
  set (collected := trace (ConfigDiscover.collect fs discovery)) in *.
  clearbody collected.
  unfold value, trace. simpl. rewrite filesWritten_app, Hfree. split; reflexivity.
Qed.

Lemma execute_without_listeners_fails_witness :
  value (EnvoyProxyPlugin.execute MoreExamples.fs
           (Examples.request "nolisteners.yaml" ["svc7"])) =
    Normal (EnvoyProxyPlugin.Text
              "Error: Cannot read properties of undefined (reading 'length')") /\
  filesWritten (trace (EnvoyProxyPlugin.execute MoreExamples.fs
                         (Examples.request "nolisteners.yaml" ["svc7"]))) = [].
Proof.
  apply (execute_without_listeners_fails MoreExamples.fs
           (Examples.request "nolisteners.yaml" ["svc7"])
           (EnvoyProxyPlugin.parse_options (Examples.request "nolisteners.yaml" ["svc7"]))
           PropMissing PropMissing {| listeners := None; clusters := [] |}
           {| sc_clusters := Some [ {| name := "svc1"; type := None |} ];
              sc_routes := Some [] |} []).
  - reflexivity.
  - reflexivity.
  - reflexivity.
  - reflexivity.
Defined.



(** ** Options *)

Lemma sameUsed_refl (o : EnvoyProxyPlugin.Options) : sameUsed o o.
Proof. repeat split. Qed.

Lemma sameUsed_trans (o1 o2 o3 : EnvoyProxyPlugin.Options) :
  sameUsed o1 o2 -> sameUsed o2 o3 -> sameUsed o1 o3.
Proof.
  intros (H1 & H2 & H3 & H4) (G1 & G2 & G3 & G4). repeat split; congruence.
Qed.

Lemma set_option_sameUsed (o1 o2 : EnvoyProxyPlugin.Options)
    (entry : string * EnvoyProxyPlugin.OptionValue) :
  sameUsed o1 o2 ->
  sameUsed (EnvoyProxyPlugin.set_option o1 entry) (EnvoyProxyPlugin.set_option o2 entry).
Proof.
  intros (H1 & H2 & H3 & H4). destruct entry as [key [v|a|]];
    unfold EnvoyProxyPlugin.set_option, sameUsed.
  - destruct (String.eqb key "root-path"), (String.eqb key "base"),
      (String.eqb key "output"), (String.eqb key "folder-name"); simpl; repeat split;
      assumption.
  - destruct (String.eqb key "items"); simpl; repeat split; assumption.
  - simpl. repeat split; assumption.
Qed.

Lemma set_option_rootPath (o : EnvoyProxyPlugin.Options) (v : EnvoyProxyPlugin.OptionValue) :
  sameUsed (EnvoyProxyPlugin.set_option o ("root-path", v)) o.
Proof. destruct o, v; repeat split. Qed.

Lemma fold_without_rootPath (entries : list (string * EnvoyProxyPlugin.OptionValue))
    (o1 o2 : EnvoyProxyPlugin.Options) :
  sameUsed o1 o2 ->
  sameUsed (fold_left EnvoyProxyPlugin.set_option entries o1)
           (fold_left EnvoyProxyPlugin.set_option (withoutRootPath entries) o2).
Proof.
  revert o1 o2. induction entries as [|[key v] entries IH]; intros o1 o2 Ho; [exact Ho|].
  change (fold_left EnvoyProxyPlugin.set_option ((key, v) :: entries) o1)
    with (fold_left EnvoyProxyPlugin.set_option entries
            (EnvoyProxyPlugin.set_option o1 (key, v))).
  change (withoutRootPath ((key, v) :: entries))
    with (if negb (String.eqb key "root-path")
          then (key, v) :: withoutRootPath entries else withoutRootPath entries).
  destruct (String.eqb_spec key "root-path") as [-> | Hne]; cbn [negb].
  - apply IH. eapply sameUsed_trans; [apply set_option_rootPath | exact Ho].
  - change (fold_left EnvoyProxyPlugin.set_option ((key, v) :: withoutRootPath entries) o2)
      with (fold_left EnvoyProxyPlugin.set_option (withoutRootPath entries)
              (EnvoyProxyPlugin.set_option o2 (key, v))).
    apply IH, set_option_sameUsed, Ho.
Qed.

Lemma execute_sameUsed (fs : NodeFs)
    (r1 r2 : option (list (string * EnvoyProxyPlugin.OptionValue))) :
  sameUsed (EnvoyProxyPlugin.parse_options r1) (EnvoyProxyPlugin.parse_options r2) ->
  EnvoyProxyPlugin.execute fs r1 = EnvoyProxyPlugin.execute fs r2.
Proof.
  intros (H1 & H2 & H3 & H4).
  unfold EnvoyProxyPlugin.execute, EnvoyProxyPlugin.discovery_of. cbv zeta.
  rewrite H1, H2, H3, H4. reflexivity.
Qed.

(** X21: the option ["root-path"] has no effect: [execute] answers the
    same and reads and writes the same files with and without it, whatever
    its value is. *)
Theorem root_path_has_no_effect (fs : NodeFs)
    (entries : list (string * EnvoyProxyPlugin.OptionValue)) :
  EnvoyProxyPlugin.execute fs (Some entries) =
  EnvoyProxyPlugin.execute fs (Some (withoutRootPath entries)).
Proof.
  apply execute_sameUsed. unfold EnvoyProxyPlugin.parse_options. simpl.
  apply fold_without_rootPath, sameUsed_refl.
Qed.

Lemma optionValue_absent (key : string)
    (entries : list (string * EnvoyProxyPlugin.OptionValue)) :
  key ∉ (fst <$> entries) -> optionValue key entries = None.
Proof.
  unfold optionValue. induction entries as [|[k v] entries IH]; intros Hk; [reflexivity|].
  rewrite fmap_cons in Hk. apply not_elem_of_cons in Hk as [Hne Hk]. simpl in *.
  destruct (String.eqb_spec k key) as [-> | _]; [contradiction | apply IH, Hk].
Qed.

Lemma optionValue_cons (key k : string) (v : EnvoyProxyPlugin.OptionValue)
    (entries : list (string * EnvoyProxyPlugin.OptionValue)) :
  optionValue key ((k, v) :: entries) =
  if String.eqb k key then Some v else optionValue key entries.
Proof. unfold optionValue. simpl. destruct (String.eqb k key); reflexivity. Qed.

Lemma fold_options_by_key (entries : list (string * EnvoyProxyPlugin.OptionValue))
    (o : EnvoyProxyPlugin.Options) :
  NoDup (fst <$> entries) ->
  let o' := fold_left EnvoyProxyPlugin.set_option entries o in
  EnvoyProxyPlugin.base o' =
    match optionValue "base" entries with
    | Some (EnvoyProxyPlugin.OptString v) => v
    | _ => EnvoyProxyPlugin.base o
    end /\
  EnvoyProxyPlugin.output o' =
    match optionValue "output" entries with
    | Some (EnvoyProxyPlugin.OptString v) => v
    | _ => EnvoyProxyPlugin.output o
    end /\
  EnvoyProxyPlugin.folderName o' =
    match optionValue "folder-name" entries with
    | Some (EnvoyProxyPlugin.OptString v) => v
    | _ => EnvoyProxyPlugin.folderName o
    end /\
  EnvoyProxyPlugin.items o' =
    match optionValue "items" entries with
    | Some (EnvoyProxyPlugin.OptArray a) => a
    | _ => EnvoyProxyPlugin.items o
    end.
Proof.
  revert o. induction entries as [|[k v] entries IH]; intros o Hnd; [repeat split|].
  rewrite fmap_cons in Hnd. apply NoDup_cons in Hnd as [Hk Hnd]. simpl in Hk.
  specialize (IH (EnvoyProxyPlugin.set_option o (k, v)) Hnd).
  cbv zeta in *.
  change (fold_left EnvoyProxyPlugin.set_option ((k, v) :: entries) o)
    with (fold_left EnvoyProxyPlugin.set_option entries (EnvoyProxyPlugin.set_option o (k, v))).
  destruct IH as (Hb & Ho & Hf & Hi). rewrite Hb, Ho, Hf, Hi. clear Hb Ho Hf Hi.
  rewrite !optionValue_cons.
  destruct (String.eqb_spec k "base") as [Eb | Hb];
    [subst k; rewrite (optionValue_absent "base" entries Hk) |
  destruct (String.eqb_spec k "output") as [Eo | Ho];
    [subst k; rewrite (optionValue_absent "output" entries Hk) |
  destruct (String.eqb_spec k "folder-name") as [Ef | Hf];
    [subst k; rewrite (optionValue_absent "folder-name" entries Hk) |
  destruct (String.eqb_spec k "items") as [Ei | Hi];
    [subst k; rewrite (optionValue_absent "items" entries Hk) |
     unfold EnvoyProxyPlugin.set_option;
     rewrite (proj2 (String.eqb_neq k "base") Hb), (proj2 (String.eqb_neq k "output") Ho),
       (proj2 (String.eqb_neq k "folder-name") Hf), (proj2 (String.eqb_neq k "items") Hi)]]]];
  unfold EnvoyProxyPlugin.set_option; destruct v; simpl;
  repeat match goal with
         | |- context [String.eqb ?a ?b] => destruct (String.eqb a b)
         end;
  simpl; repeat split;
  repeat match goal with
         | |- context [optionValue ?key entries] =>
           destruct (optionValue key entries) as [[]|]
         end; reflexivity.
Qed.

(** X22: the options are read by key and by type.  With an options object
    (no key twice), [base], [output] and [folder-name] are taken from the
    entry of that key when its value is a string, and [items] from the
    entry of that key when its value is an array; a missing entry or a
    value of another type leaves the default ([""], [""], ["envoy"], the
    empty list). *)
Theorem options_are_read_by_key_and_type
    (entries : list (string * EnvoyProxyPlugin.OptionValue)) :
  NoDup (fst <$> entries) ->
  EnvoyProxyPlugin.base (EnvoyProxyPlugin.parse_options (Some entries)) =
    match optionValue "base" entries with
    | Some (EnvoyProxyPlugin.OptString v) => v
    | _ => ""
    end /\
  EnvoyProxyPlugin.output (EnvoyProxyPlugin.parse_options (Some entries)) =
    match optionValue "output" entries with
    | Some (EnvoyProxyPlugin.OptString v) => v
    | _ => ""
    end /\
  EnvoyProxyPlugin.folderName (EnvoyProxyPlugin.parse_options (Some entries)) =
    match optionValue "folder-name" entries with
    | Some (EnvoyProxyPlugin.OptString v) => v
    | _ => "envoy"
    end /\
  EnvoyProxyPlugin.items (EnvoyProxyPlugin.parse_options (Some entries)) =
    match optionValue "items" entries with
    | Some (EnvoyProxyPlugin.OptArray a) => a
    | _ => []
    end.
Proof.
  intros Hnd.
  apply (fold_options_by_key entries EnvoyProxyPlugin.default_options Hnd).
Qed.

Lemma options_are_read_by_key_and_type_witness :
  EnvoyProxyPlugin.base
    (EnvoyProxyPlugin.parse_options
       (Some [ ("base", EnvoyProxyPlugin.OptString "b.yaml");
               ("items", EnvoyProxyPlugin.OptString "svc1");
               ("folder-name", EnvoyProxyPlugin.OptArray ["proxy"]) ])) = "b.yaml" /\
  EnvoyProxyPlugin.output
    (EnvoyProxyPlugin.parse_options
       (Some [ ("base", EnvoyProxyPlugin.OptString "b.yaml");
               ("items", EnvoyProxyPlugin.OptString "svc1");
               ("folder-name", EnvoyProxyPlugin.OptArray ["proxy"]) ])) = "" /\
  EnvoyProxyPlugin.folderName
    (EnvoyProxyPlugin.parse_options
       (Some [ ("base", EnvoyProxyPlugin.OptString "b.yaml");
               ("items", EnvoyProxyPlugin.OptString "svc1");
               ("folder-name", EnvoyProxyPlugin.OptArray ["proxy"]) ])) = "envoy" /\
  EnvoyProxyPlugin.items
    (EnvoyProxyPlugin.parse_options
       (Some [ ("base", EnvoyProxyPlugin.OptString "b.yaml");
               ("items", EnvoyProxyPlugin.OptString "svc1");
               ("folder-name", EnvoyProxyPlugin.OptArray ["proxy"]) ])) = [].
Proof.
  apply (options_are_read_by_key_and_type
           [ ("base", EnvoyProxyPlugin.OptString "b.yaml");
             ("items", EnvoyProxyPlugin.OptString "svc1");
             ("folder-name", EnvoyProxyPlugin.OptArray ["proxy"]) ]).
  apply (bool_decide_unpack _). vm_compute. reflexivity.
Defined.

(** * The earlier variant of [Compiler] *)

Lemma variant_clusterLoop (cs : list Cluster) (sr : StaticResources) :
  for_of cs CompilerVariant.mergeClusterStmt (Some {| static_resources := Some sr |}) =
  (Normal tt,
   Some {| static_resources :=
             Some {| listeners := listeners sr;
                     clusters := mergeClusters cs (clusters sr) |} |}).
Proof.
  revert sr. induction cs as [|c cs IH]; intros sr; simpl.
  - destruct sr; reflexivity.
  - unfold CompilerVariant.mergeClusterStmt at 1. st_unfold. simpl.
    rewrite IH. reflexivity.
Qed.

Lemma variant_mergeConfig (s : ServiceConfg) (cs : list Cluster) (rs : RouteArray)
    (sr : StaticResources) :
  sc_clusters s = Some cs -> sc_routes s = Some rs ->
  CompilerVariant.mergeConfig s (Some {| static_resources := Some sr |}) =
  (Normal {| static_resources :=
               Some {| listeners := listeners sr;
                       clusters := mergeClusters cs (clusters sr) |} |},
   Some {| static_resources :=
             Some {| listeners := listeners sr;
                     clusters := mergeClusters cs (clusters sr) |} |}).
Proof.
  intros Hcs Hrs. unfold CompilerVariant.mergeConfig. rewrite Hcs, Hrs.
  unfold mbind at 1. unfold St_bind. rewrite variant_clusterLoop.
  reflexivity.
Qed.

(** X23: the earlier variant of the class merges the clusters as the class
    in use does and never adds a route: for a base document with
    [static_resources] and fragments that have their two arrays, [build]
    completes (with or without a [listeners] array), returns the store, and
    the store is the base document with its cluster list merged and
    nothing else changed. *)
Theorem variant_merges_clusters_and_adds_no_route
    (sr : StaticResources) (ss : list ServiceConfg) :
  Forall (fun s => is_Some (sc_clusters s) /\ is_Some (sc_routes s)) ss ->
  CompilerVariant.build ss (Some {| static_resources := Some sr |}) =
  (Normal (Some {| static_resources :=
                     Some {| listeners := listeners sr;
                             clusters := mergeClusters (writes ss) (clusters sr) |} |}),
   Some {| static_resources :=
             Some {| listeners := listeners sr;
                     clusters := mergeClusters (writes ss) (clusters sr) |} |}).
Proof.
  intros Hss. revert sr.
  induction Hss as [|s ss [[cs Hcs] [rs Hrs]] _ IH]; intros sr.
  - simpl. destruct sr; reflexivity.
  - simpl. st_unfold. simpl.
    rewrite (variant_mergeConfig s cs rs sr Hcs Hrs). simpl.
    rewrite IH. simpl. unfold writes. simpl. rewrite Hcs. simpl.
    rewrite mergeClusters_app. reflexivity.
Qed.

Lemma variant_merges_clusters_and_adds_no_route_witness :
  CompilerVariant.build [Examples.fragment1; Examples.fragment2]
    (Some {| static_resources := static_resources Examples.scenario_base |}) =
  (Normal (Some (Examples.resolved_base [Examples.route "/health"]
                   (mergeClusters (writes [Examples.fragment1; Examples.fragment2])
                      [ {| name := "existing_cluster"; type := None |} ]))),
   Some (Examples.resolved_base [Examples.route "/health"]
           (mergeClusters (writes [Examples.fragment1; Examples.fragment2])
              [ {| name := "existing_cluster"; type := None |} ]))).
Proof.
  apply (variant_merges_clusters_and_adds_no_route
           {| listeners := Some [Examples.listener_with
                                   (Some [Examples.vhost [Examples.route "/health"]])];
              clusters := [ {| name := "existing_cluster"; type := None |} ] |}
           [Examples.fragment1; Examples.fragment2]).
  repeat constructor; eexists; reflexivity.
Defined.
